(** * cmdlapp: lifecycle of the command-line tool base class

    A shallow embedding of [cmdlapp/cmdlapp.py] (class [CmdlApp]) and of the
    way [cmdlapp/example.py] drives it.  Python objects become explicit
    state: the instance dictionary written by [setattr], the parser, the
    parsed arguments, the loaded configuration, the root logger and the
    signal table all live in one [World] that every method threads through
    a state-and-exception monad. *)

From Stdlib Require Import ZArith Ascii String List.
From stdpp Require Import gmap strings list pretty.

Local Open Scope Z_scope.
Local Open Scope string_scope.
Local Set Warnings "-register-all,-clear-no-such-hyp".

(** ** Python values, exceptions and the execution monad *)

Module Py.

(** Exceptions the program raises or meets.  [SystemExit] is what
    [sys.exit] raises; [OSError] and [YAMLError] come from [open] and
    [yaml.load]; [UserError] stands for any other exception of user code. *)
Inductive exn :=
| KeyboardInterrupt
| SystemExit (code : Z)
| ValueError (msg : string)
| AttributeError (msg : string)
| TypeError (msg : string)
| OSError (msg : string)
| YAMLError (msg : string)
| UserError (msg : string).

(** Deserialised configuration: maps, lists and scalars. *)
Inductive yaml :=
| YNull
| YBool (b : bool)
| YInt (z : Z)
| YStr (s : string)
| YSeq (items : list yaml)
| YMap (entries : list (string * yaml)).

(** A file on disk, seen through [open(path, 'r')] followed by
    [yaml.load]. *)
Inductive file :=
| Unreadable
| Malformed
| WellFormed (doc : yaml).

(** What a work function does, as far as the base class can observe it:
    it logs, it is interrupted by a hang-up signal, the files around it
    change ([None] removes the file), and finally it returns or raises. *)
Inductive work :=
| WReturn
| WRaise (e : exn)
| WLog (levelno : Z) (msg : string) (k : work)
| WSighup (k : work)
| WFile (path : string) (f : option file) (k : work).

(** What an [on_reload] written by a subclass does: it logs, calls
    [self.load_cfgfile()] or the inherited [on_reload], and returns or
    raises. *)
Inductive hook :=
| HReturn
| HRaise (e : exn)
| HLog (levelno : Z) (msg : string) (k : hook)
| HLoad (k : hook)
| HSuper (k : hook).

(** The values the program meets.  The only list among them is the empty
    one, which [argparse] yields for an option's argument [--]. *)
Inductive value :=
| VNone
| VBool (b : bool)
| VInt (z : Z)
| VStr (s : string)
| VFun (body : work)
| VEmptyList.

(** [bool(v)] *)
Definition truthy (v : value) : bool :=
  match v with
  | VNone => false
  | VBool b => b
  | VInt z => negb (z =? 0)%Z
  | VStr s => negb (String.eqb s "")
  | VFun _ => true
  | VEmptyList => false
  end.

(** [v == True] *)
Definition eq_True (v : value) : bool :=
  match v with
  | VBool b => b
  | VInt z => (z =? 1)%Z
  | _ => false
  end.

(** [v != None] *)
Definition ne_None (v : value) : bool :=
  match v with
  | VNone => false
  | _ => true
  end.

(** [str(v)], as [str.format] inserts it.  The text of a function object
    carries its address; it is rendered without it. *)
Definition str (v : value) : string :=
  match v with
  | VNone => "None"
  | VBool true => "True"
  | VBool false => "False"
  | VInt z => pretty z
  | VStr s => s
  | VFun _ => "<function>"
  | VEmptyList => "[]"
  end.

(** How a computation ends: a value, a raised exception, or the process
    killed by a signal nobody handles. *)
Inductive outcome (A : Type) :=
| Ok (a : A)
| Raise (e : exn)
| Killed (sig : Z).
Arguments Ok {A} a.
Arguments Raise {A} e.
Arguments Killed {A} sig.

Section Monad.
Context {W : Type}.

Definition M (A : Type) : Type := W -> outcome A * W.

Definition ret {A} (a : A) : M A := fun w => (Ok a, w).

Definition bind {A B} (m : M A) (f : A -> M B) : M B :=
  fun w =>
    match m w with
    | (Ok a, w') => f a w'
    | (Raise e, w') => (Raise e, w')
    | (Killed s, w') => (Killed s, w')
    end.

Definition raise {A} (e : exn) : M A := fun w => (Raise e, w).

Definition get : M W := fun w => (Ok w, w).

Definition modify (f : W -> W) : M unit := fun w => (Ok tt, f w).

(** [try: body except: handler] with a bare [except], which catches
    every exception, [SystemExit] and [KeyboardInterrupt] included. *)
Definition try_except {A} (body : M A) (handler : exn -> M A) : M A :=
  fun w =>
    match body w with
    | (Raise e, w') => handler e w'
    | r => r
    end.
End Monad.
Arguments M : clear implicits.

End Py.

Declare Scope py_scope.
Delimit Scope py_scope with py.
Notation "x <- m ;; k" := (Py.bind m (fun x => k))
  (at level 100, m at next level, right associativity) : py_scope.
Notation "m ;; k" := (Py.bind m (fun _ => k))
  (at level 100, right associativity) : py_scope.
Local Open Scope py_scope.

(** ** The [logging] module: levels, root configuration, records *)

Module Logging.

Definition DEBUG : Z := 10.
Definition INFO : Z := 20.
Definition WARNING : Z := 30.
Definition ERROR : Z := 40.

(** The keywords of [logging.basicConfig] that the program uses; also what
    the root logger is configured with: its level, the format of its one
    handler, and the file that handler writes to with the mode it was
    opened in, or no file for a handler on the standard error stream. *)
Record Config := {
  level : Z;
  format : string;
  filename : option Py.value;
  filemode : option string;
}.

(** The handler [basicConfig] makes from its keywords: a file handler when
    [filename] is true in the sense of [if], opened for appending unless
    [filemode] says otherwise; a stream handler in every other case, and
    then [filemode] plays no role. *)
Definition effective (kw : Config) : Config :=
  match filename kw with
  | Some f =>
      if Py.truthy f
      then {| level := level kw; format := format kw; filename := Some f;
              filemode := Some (match filemode kw with Some m => m | None => "a" end) |}
      else {| level := level kw; format := format kw;
              filename := None; filemode := None |}
  | None => {| level := level kw; format := format kw;
               filename := None; filemode := None |}
  end.

(** The root logger before anybody configured it: threshold WARNING,
    output on the standard error stream. *)
Definition default_config : Config :=
  {| level := WARNING;
     format := "%(levelname)s:%(name)s:%(message)s";
     filename := None;
     filemode := None |}.

(** One emitted record.  [exc_info] is the exception whose traceback
    [logging.exception] attaches; [sink] is the log file, if any. *)
Record LogRecord := {
  levelno : Z;
  message : string;
  exc_info : option Py.exn;
  sink : option Py.value;
}.

(** The level a level name of the messages stands for. *)
Definition level_of_name (name : string) : option Z :=
  if String.eqb name "debug" then Some DEBUG
  else if String.eqb name "info" then Some INFO
  else if String.eqb name "warning" then Some WARNING
  else if String.eqb name "error" then Some ERROR
  else None.

End Logging.

(** ** The [argparse] module, for parsers made of options

    [parse_args] follows [ArgumentParser.parse_args] of Python 3.11 for a
    parser without positional arguments whose options are switches
    ([store_true]), options with one value ([store]) and the help option
    that [ArgumentParser()] adds: the classification of every word
    ([_parse_optional], with abbreviated long options, [--name=value],
    [-nvalue] and negative numbers), the words after [--], joined short
    options, and the order in which errors and the help exit occur.
    [parser.error] is [sys.exit(2)], the help action [sys.exit(0)]; what
    they print is not kept.  A character of a word is a code point below
    256. *)

Module Argparse.

Inductive action := store | store_true | show_help.

Record Argument := {
  short : string;
  long : string;
  dest : string;
  help : string;
  act : action;
  required : bool;
  default : Py.value;
}.

Definition Namespace := gmap string Py.value.

(** The option every parser starts with; it has no attribute in the
    namespace. *)
Definition help_option : Argument :=
  {| short := "-h"; long := "--help"; dest := "help";
     help := "show this help message and exit";
     act := show_help; required := false; default := Py.VNone |}.

(** [ArgumentParser()] *)
Definition ArgumentParser : list Argument := [help_option].

(** Value of an option that does not occur on the command line. *)
Definition absent (a : Argument) : Py.value :=
  match act a with
  | store_true => Py.VBool false
  | _ => default a
  end.

Definition defaults (specs : list Argument) : gmap string Py.value :=
  fold_right
    (fun a ns => match act a with
                 | show_help => ns
                 | _ => <[dest a := absent a]> ns
                 end) ∅ specs.

(** [_option_string_actions], in the order of the [add_argument] calls *)
Definition option_strings (specs : list Argument) : list (string * Argument) :=
  flat_map (fun a => [(short a, a); (long a, a)]) specs.

Definition lookup_option (specs : list Argument) (s : string) : option Argument :=
  option_map snd (List.find (fun sa => String.eqb (fst sa) s) (option_strings specs)).

(** *** Words *)

Definition starts_with_dash (s : string) : bool :=
  match s with
  | String c _ => Ascii.eqb c "-"%char
  | EmptyString => false
  end.

Definition second_is_dash (s : string) : bool :=
  match s with
  | String _ (String c _) => Ascii.eqb c "-"%char
  | _ => false
  end.

(** [s.split(c, 1)] when [c] occurs in [s] *)
Fixpoint split_at (c : ascii) (s : string) : option (string * string) :=
  match s with
  | EmptyString => None
  | String a rest =>
      if Ascii.eqb a c then Some (EmptyString, rest)
      else match split_at c rest with
           | Some (l, r) => Some (String a l, r)
           | None => None
           end
  end.

Fixpoint has_char (c : ascii) (s : string) : bool :=
  match s with
  | EmptyString => false
  | String a rest => Ascii.eqb a c || has_char c rest
  end.

Definition is_digit (c : ascii) : bool :=
  (48 <=? nat_of_ascii c)%nat && (nat_of_ascii c <=? 57)%nat.

Fixpoint all_digits (s : string) : bool :=
  match s with
  | EmptyString => true
  | String c rest => is_digit c && all_digits rest
  end.

Definition some_digits (s : string) : bool :=
  negb (String.eqb s "") && all_digits s.

(** The end of the pattern, [$], also matches before a final newline. *)
Fixpoint chomp (s : string) : string :=
  match s with
  | EmptyString => EmptyString
  | String c rest =>
      if Ascii.eqb c "010"%char && String.eqb rest "" then EmptyString
      else String c (chomp rest)
  end.

(** [_negative_number_matcher]: ['^-\d+$|^-\d*\.\d+$'] *)
Definition negative_number (s : string) : bool :=
  match s with
  | String c body =>
      Ascii.eqb c "-"%char &&
      (let b := chomp body in
       some_digits b ||
       match split_at "."%char b with
       | Some (whole, fraction) => all_digits whole && some_digits fraction
       | None => false
       end)
  | EmptyString => false
  end.

(** What a word of the command line is taken for: an argument, the
    marker [--], an option (declared or not) with the argument joined
    to it, or an abbreviation of several options. *)
Inductive looks :=
| Positional
| DoubleDash
| Optional (a : option Argument) (option_string : string) (explicit : option string)
| Ambiguous.

Definition get_option_tuples (specs : list Argument) (w : string)
  : list (Argument * string * option string) :=
  if second_is_dash w then
    let '(option_prefix, explicit) :=
      match split_at "="%char w with
      | Some (p, e) => (p, Some e)
      | None => (w, None)
      end in
    flat_map (fun sa => if String.prefix option_prefix (fst sa)
                        then [(snd sa, fst sa, explicit)] else [])
      (option_strings specs)
  else
    let short_option_prefix := String.substring 0 2 w in
    let short_explicit := String.substring 2 (String.length w - 2) w in
    flat_map (fun sa => if String.eqb (fst sa) short_option_prefix
                        then [(snd sa, fst sa, Some short_explicit)]
                        else if String.prefix w (fst sa)
                        then [(snd sa, fst sa, None)] else [])
      (option_strings specs).

(** [_parse_optional] *)
Definition parse_optional (specs : list Argument) (w : string) : looks :=
  if String.eqb w "" then Positional
  else if negb (starts_with_dash w) then Positional
  else
    match lookup_option specs w with
    | Some a => Optional (Some a) w None
    | None =>
        if (String.length w =? 1)%nat then Positional
        else
          match match split_at "="%char w with
                | Some (o, e) =>
                    match lookup_option specs o with
                    | Some a => Some (Optional (Some a) o (Some e))
                    | None => None
                    end
                | None => None
                end with
          | Some found => found
          | None =>
              match get_option_tuples specs w with
              | _ :: _ :: _ => Ambiguous
              | [(a, s, e)] => Optional (Some a) s e
              | [] =>
                  if negative_number w then Positional
                  else if has_char " "%char w then Positional
                  else Optional None w None
              end
          end
    end.

(** The first pass over the command line; [None] when a word is
    ambiguous.  After [--] every word is an argument. *)
Fixpoint pattern (specs : list Argument) (argv : list string)
  : option (list (string * looks)) :=
  match argv with
  | [] => Some []
  | w :: rest =>
      if String.eqb w "--"
      then Some ((w, DoubleDash) :: map (fun x => (x, Positional)) rest)
      else match parse_optional specs w with
           | Ambiguous => None
           | k => option_map (cons (w, k)) (pattern specs rest)
           end
  end.

(** *** Options *)

(** [_get_values] for one argument string *)
Definition value_of (s : string) : Py.value :=
  if String.eqb s "--" then Py.VEmptyList else Py.VStr s.

(** An option with the argument [ex] joined to it.  An option without
    value that was given by its short name hands the argument on, letter
    by letter, to further short options.  The result is the options to
    act on with their arguments and, last, an option still waiting for
    what follows the word; [None] is an error. *)
Fixpoint chain (specs : list Argument) (a : Argument) (o : string) (ex : string)
  : option (list (Argument * option string) * option Argument) :=
  match act a with
  | store => Some ([(a, Some ex)], None)
  | _ =>
      if second_is_dash o then None
      else
        match ex with
        | EmptyString => None
        | String c ex' =>
            match lookup_option specs (String "-"%char (String c EmptyString)) with
            | None => None
            | Some a' =>
                match ex' with
                | EmptyString => Some ([(a, None)], Some a')
                | _ =>
                    match chain specs a' (String "-"%char (String c EmptyString)) ex' with
                    | Some (taken, waiting) => Some ((a, None) :: taken, waiting)
                    | None => None
                    end
                end
            end
        end
  end.

(** [take_action]: the effect on the namespace and the set of options
    seen, or the exit status of the help action. *)
Definition take (a : Argument) (v : option string)
    (st : gmap string Py.value * gset string)
  : (gmap string Py.value * gset string) + Z :=
  match act a with
  | store_true => inl (<[dest a := Py.VBool true]> (fst st), {[dest a]} ∪ snd st)
  | store =>
      inl (<[dest a := value_of (match v with Some s => s | None => "" end)]> (fst st),
           {[dest a]} ∪ snd st)
  | show_help => inr 0
  end.

Fixpoint take_all (taken : list (Argument * option string))
    (st : gmap string Py.value * gset string)
  : (gmap string Py.value * gset string) + Z :=
  match taken with
  | [] => inl st
  | (a, v) :: more =>
      match take a v st with
      | inl st' => take_all more st'
      | inr code => inr code
      end
  end.

Definition supplied (seen : gset string) (a : Argument) : bool :=
  implb (required a) (bool_decide (dest a ∈ seen)).

(** The end of [_parse_known_args] and of [parse_args]: every required
    option was seen and no word was left over. *)
Definition finish (specs : list Argument) (st : gmap string Py.value * gset string)
    (extras : bool) : gmap string Py.value + Z :=
  if forallb (supplied (snd st)) specs
  then if extras then inr 2 else inl (fst st)
  else inr 2.

(** The second pass: options are consumed from left to right, each with
    the arguments it takes; every other word is left over. *)
Fixpoint consume (specs : list Argument) (items : list (string * looks))
    (st : gmap string Py.value * gset string) (extras : bool)
  : gmap string Py.value + Z :=
  match items with
  | [] => finish specs st extras
  | (w, Optional (Some a) o e) :: rest =>
      match match e with
            | Some ex => chain specs a o ex
            | None => Some ([], Some a)
            end with
      | None => inr 2
      | Some (taken, None) =>
          match take_all taken st with
          | inl st' => consume specs rest st' extras
          | inr code => inr code
          end
      | Some (taken, Some waiting) =>
          match act waiting with
          | store =>
              match rest with
              | (v, Positional) :: rest' =>
                  match take_all (taken ++ [(waiting, Some v)]) st with
                  | inl st' => consume specs rest' st' extras
                  | inr code => inr code
                  end
              | _ => inr 2
              end
          | _ =>
              match take_all (taken ++ [(waiting, None)]) st with
              | inl st' => consume specs rest st' extras
              | inr code => inr code
              end
          end
      end
  | _ :: rest => consume specs rest st true
  end.

Definition parse_args (specs : list Argument) (argv : list string)
  : Py.outcome (gmap string Py.value) :=
  match pattern specs argv with
  | None => Py.Raise (Py.SystemExit 2)
  | Some items =>
      match consume specs items (defaults specs, ∅) false with
      | inl ns => Py.Ok ns
      | inr code => Py.Raise (Py.SystemExit code)
      end
  end.

End Argparse.

(** ** The state of the process *)

(** Calls, in the order they are made; [run] and the signal handler leave
    one entry per call statement. *)
Inductive event :=
| Call (callee : string) (args : list Py.value).

Record World := {
  (** the instance: attributes written by [setattr], then the members
      [run] and [load_cfgfile] assign *)
  attrs : gmap string Py.value;
  parser : option (list Argparse.Argument);
  args : option (gmap string Py.value);
  cfg : option Py.yaml;
  (** the process around it *)
  argv : list string;
  (** the files the program reads, by path; what is logged is kept in
      [records] and is in no file of [fs] *)
  fs : gmap string Py.file;
  (** paths that cannot be opened for writing: no permission, a
      directory, no directory to create the file in *)
  locked : gset string;
  root : option Logging.Config;
  records : list Logging.LogRecord;
  sighup : bool;
  trace : list event;
}.

Definition set_attrs (f : gmap string Py.value -> gmap string Py.value) (w : World) : World :=
  {| attrs := f (attrs w); parser := parser w; args := args w; cfg := cfg w;
     argv := argv w; fs := fs w; locked := locked w; root := root w; records := records w;
     sighup := sighup w; trace := trace w |}.

Definition set_parser (p : option (list Argparse.Argument)) (w : World) : World :=
  {| attrs := attrs w; parser := p; args := args w; cfg := cfg w;
     argv := argv w; fs := fs w; locked := locked w; root := root w; records := records w;
     sighup := sighup w; trace := trace w |}.

Definition set_args (a : option (gmap string Py.value)) (w : World) : World :=
  {| attrs := attrs w; parser := parser w; args := a; cfg := cfg w;
     argv := argv w; fs := fs w; locked := locked w; root := root w; records := records w;
     sighup := sighup w; trace := trace w |}.

Definition set_cfg (c : option Py.yaml) (w : World) : World :=
  {| attrs := attrs w; parser := parser w; args := args w; cfg := c;
     argv := argv w; fs := fs w; locked := locked w; root := root w; records := records w;
     sighup := sighup w; trace := trace w |}.

Definition set_fs (f : gmap string Py.file -> gmap string Py.file) (w : World) : World :=
  {| attrs := attrs w; parser := parser w; args := args w; cfg := cfg w;
     argv := argv w; fs := f (fs w); locked := locked w; root := root w;
     records := records w;
     sighup := sighup w; trace := trace w |}.

Definition set_locked (l : gset string) (w : World) : World :=
  {| attrs := attrs w; parser := parser w; args := args w; cfg := cfg w;
     argv := argv w; fs := fs w; locked := l; root := root w; records := records w;
     sighup := sighup w; trace := trace w |}.

Definition set_root (r : option Logging.Config) (w : World) : World :=
  {| attrs := attrs w; parser := parser w; args := args w; cfg := cfg w;
     argv := argv w; fs := fs w; locked := locked w; root := r; records := records w;
     sighup := sighup w; trace := trace w |}.

Definition add_record (r : Logging.LogRecord) (w : World) : World :=
  {| attrs := attrs w; parser := parser w; args := args w; cfg := cfg w;
     argv := argv w; fs := fs w; locked := locked w; root := root w; records := records w ++ [r];
     sighup := sighup w; trace := trace w |}.

Definition set_sighup (b : bool) (w : World) : World :=
  {| attrs := attrs w; parser := parser w; args := args w; cfg := cfg w;
     argv := argv w; fs := fs w; locked := locked w; root := root w; records := records w;
     sighup := b; trace := trace w |}.

Definition add_event (e : event) (w : World) : World :=
  {| attrs := attrs w; parser := parser w; args := args w; cfg := cfg w;
     argv := argv w; fs := fs w; locked := locked w; root := root w; records := records w;
     sighup := sighup w; trace := trace w ++ [e] |}.

(** A process that has just started: nothing constructed, the root logger
    untouched, the default disposition for every signal.  Every path can
    be opened for writing. *)
Definition boot (command_line : list string) (disk : gmap string Py.file) : World :=
  {| attrs := ∅; parser := None; args := None; cfg := None;
     argv := command_line; fs := disk; locked := ∅; root := None; records := [];
     sighup := false; trace := [] |}.

Abbreviation M := (Py.M World).

(** A call statement: note the call, then run the callee. *)
Definition call {A} (callee : string) (actuals : list Py.value) (body : M A) : M A :=
  Py.modify (add_event (Call callee actuals));; body.

(** *** Logging functions of the module level *)

(** [logging.FileHandler(filename, mode)] opens the file at once. *)
Definition open_log (filename : Py.value) : M unit :=
  match filename with
  | Py.VStr p =>
      w <- Py.get;;
      if bool_decide (p ∈ locked w)
      then Py.raise (Py.OSError "Permission denied")
      else Py.ret tt
  | _ => Py.raise (Py.TypeError "expected str, bytes or os.PathLike object")
  end.

(** [logging.basicConfig] with the keywords [kw]: does nothing once the
    root logger has a handler; otherwise it makes the handler, which for
    a file means opening it, and only then configures the root logger. *)
Definition basicConfig (kw : Logging.Config) : M unit :=
  w <- Py.get;;
  match root w with
  | Some _ => Py.ret tt
  | None =>
      match Logging.filename kw with
      | Some f => if Py.truthy f then open_log f else Py.ret tt
      | None => Py.ret tt
      end;;
      Py.modify (set_root (Some (Logging.effective kw)))
  end.

(** Emission through the root logger; an unconfigured root logger is
    first given its defaults. *)
Definition log (lvl : Z) (msg : string) (exc : option Py.exn) : M unit :=
  basicConfig Logging.default_config;;
  w <- Py.get;;
  match root w with
  | Some c =>
      if (Logging.level c <=? lvl)%Z
      then Py.modify (add_record
             {| Logging.levelno := lvl; Logging.message := msg;
                Logging.exc_info := exc; Logging.sink := Logging.filename c |})
      else Py.ret tt
  | None => Py.ret tt
  end.

Definition info (msg : string) : M unit := log Logging.INFO msg None.
Definition error (msg : string) : M unit := log Logging.ERROR msg None.
(** [logging.exception] inside an [except] block handling [e]. *)
Definition exception (msg : string) (e : Py.exn) : M unit :=
  log Logging.ERROR msg (Some e).

(** [sys.exit(code)] *)
Definition sys_exit {A} (code : Z) : M A := Py.raise (Py.SystemExit code).

(** ** Class [CmdlApp] *)

Module CmdlApp.
Import Py.
Local Abbreviation M := (Py.M World).

(** [signal.SIGHUP] *)
Definition SIGHUP : Z := 1.

(** What a class of the hierarchy contributes: its name and the methods a
    subclass may define anew.  [None] inherits the method of [CmdlApp]. *)
Record Class := {
  cls_name : string;
  cls_main_fct : option work;
  cls_on_reload : option hook;
}.

Definition cfg_keys : list string :=
  ["main_fct"; "has_cfgfile"; "reload_on_hup"; "tool_name"; "tool_version"].

Definition type_name (v : value) : string :=
  match v with
  | VNone => "NoneType"
  | VBool _ => "bool"
  | VInt _ => "int"
  | VStr _ => "str"
  | VFun _ => "function"
  | VEmptyList => "list"
  end.

Section Methods.
Variable cls : Class.

Definition no_attribute {A} (owner key : string) : M A :=
  raise (AttributeError ("'" +:+ owner +:+ "' object has no attribute '" +:+ key +:+ "'")).

(** [setattr(self, key, v)] *)
Definition setattr (key : string) (v : value) : M unit :=
  modify (set_attrs (fun d => <[key := v]> d)).

(** [self.key] for an attribute kept in the instance dictionary *)
Definition getattr (key : string) : M value :=
  w <- get;;
  match attrs w !! key with
  | Some v => ret v
  | None => no_attribute (cls_name cls) key
  end.

(** [self.args.key] *)
Definition args_attr (key : string) : M value :=
  w <- get;;
  match args w with
  | None => no_attribute (cls_name cls) "args"
  | Some ns =>
      match ns !! key with
      | Some v => ret v
      | None => no_attribute "Namespace" key
      end
  end.

(** [configure(self, **args)]: the keywords in the order of the call. *)
Fixpoint configure (kwargs : list (string * value)) : M unit :=
  match kwargs with
  | [] => ret tt
  | (key, v) :: rest =>
      if bool_decide (key ∈ cfg_keys)
      then setattr key v;; configure rest
      else raise (ValueError ("Invalid config parameter '" +:+ key +:+ "'."))
  end.

Definition __init__ : M unit :=
  configure [("has_cfgfile", VBool false);
             ("reload_on_hup", VBool false);
             ("tool_name", VStr (cls_name cls));
             ("tool_version", VStr "0.0-dev")].

Definition arg_verbose : Argparse.Argument :=
  {| Argparse.short := "-v"; Argparse.long := "--verbose";
     Argparse.dest := "verbose";
     Argparse.help := "Enable verbose logging output.";
     Argparse.act := Argparse.store_true;
     Argparse.required := false; Argparse.default := VNone |}.

Definition arg_logfile : Argparse.Argument :=
  {| Argparse.short := "-l"; Argparse.long := "--logfile";
     Argparse.dest := "logfile";
     Argparse.help := "Log output to logfile.";
     Argparse.act := Argparse.store;
     Argparse.required := false; Argparse.default := VNone |}.

Definition arg_cfg : Argparse.Argument :=
  {| Argparse.short := "-c"; Argparse.long := "--cfg";
     Argparse.dest := "cfg";
     Argparse.help := "Path to the YAML config file.";
     Argparse.act := Argparse.store;
     Argparse.required := true; Argparse.default := VNone |}.

(** [self.parser.add_argument(...)] *)
Definition add_argument (a : Argparse.Argument) : M unit :=
  w <- get;;
  match parser w with
  | Some specs => modify (set_parser (Some (specs ++ [a])%list))
  | None => no_attribute (cls_name cls) "parser"
  end.

Definition setup_args : M unit :=
  modify (set_parser (Some Argparse.ArgumentParser));;
  add_argument arg_verbose;;
  add_argument arg_logfile;;
  has_cfgfile <- getattr "has_cfgfile";;
  if eq_True has_cfgfile then add_argument arg_cfg else ret tt.

(** [self.parser.parse_args()], reading the command line of the process *)
Definition parse_args : M (gmap string value) :=
  w <- get;;
  match parser w with
  | Some specs => fun w' => (Argparse.parse_args specs (argv w), w')
  | None => no_attribute (cls_name cls) "parser"
  end.

Definition setup_logging : M unit :=
  verbose <- args_attr "verbose";;
  let '(level, levelname) :=
    if truthy verbose then (Logging.DEBUG, "debug")
    else (Logging.INFO, "warning") in
  logfile <- args_attr "logfile";;
  let lcfg :=
    {| Logging.level := level;
       Logging.format := "%(asctime)s %(levelname)s: %(message)s";
       Logging.filename := if ne_None logfile then Some logfile else None;
       Logging.filemode := if ne_None logfile then Some "a" else None |} in
  basicConfig lcfg;;
  tool_name <- getattr "tool_name";;
  tool_version <- getattr "tool_version";;
  info (str tool_name +:+ " " +:+ str tool_version +:+ " starting.");;
  info ("Logging system initialized to level '" +:+ levelname +:+ "'.").

(** [open(path, 'r')] followed by [yaml.load] *)
Definition open_and_load (path : value) : M yaml :=
  match path with
  | VStr p =>
      w <- get;;
      match fs w !! p with
      | None => raise (OSError "No such file or directory")
      | Some Unreadable => raise (OSError "Permission denied")
      | Some Malformed => raise (YAMLError "could not parse the document")
      | Some (WellFormed doc) => ret doc
      end
  | _ => raise (TypeError "expected str, bytes or os.PathLike object")
  end.

Definition load_cfgfile : M unit :=
  path <- args_attr "cfg";;
  info ("Loading config file '" +:+ str path +:+ "'.");;
  try_except
    (path <- args_attr "cfg";;
     doc <- open_and_load path;;
     modify (set_cfg (Some doc)))
    (fun e =>
       verbose <- args_attr "verbose";;
       path <- args_attr "cfg";;
       (if truthy verbose
        then exception ("Failed to load config file '" +:+ str path +:+ "'.") e
        else error ("Failed to load config file '" +:+ str path +:+ "'."));;
       sys_exit 1).

(** [CmdlApp.on_reload] *)
Definition on_reload : M unit :=
  reload_on_hup <- getattr "reload_on_hup";;
  if truthy reload_on_hup
  then info "Reloading configuration due to SIGHUP signal.";;
       call "load_cfgfile" [] load_cfgfile
  else ret tt.

Fixpoint perform_hook (body : hook) : M unit :=
  match body with
  | HReturn => ret tt
  | HRaise e => raise e
  | HLog lvl msg k => log lvl msg None;; perform_hook k
  | HLoad k => call "load_cfgfile" [] load_cfgfile;; perform_hook k
  | HSuper k => call "on_reload" [] on_reload;; perform_hook k
  end.

(** [self.on_reload()]: the method of the subclass when it has one *)
Definition self_on_reload : M unit :=
  match cls_on_reload cls with
  | Some overriding => perform_hook overriding
  | None => on_reload
  end.

Definition sighup_handler (sig : Z) (stack : value) : M unit :=
  if (sig =? SIGHUP)%Z
  then reload_on_hup <- getattr "reload_on_hup";;
       if truthy reload_on_hup
       then call "on_reload" [] self_on_reload
       else ret tt
  else ret tt.

(** The process receives a hang-up signal.  With the handler installed
    the interpreter calls it; otherwise the default disposition ends the
    process. *)
Definition hangup : M unit :=
  w <- get;;
  if sighup w
  then call "sighup_handler" [VInt SIGHUP; VNone] (sighup_handler SIGHUP VNone)
  else fun w' => (Killed SIGHUP, w').

Definition write_file (path : string) (f : option file) : M unit :=
  modify (set_fs (fun disk =>
    match f with
    | Some content => <[path := content]> disk
    | None => delete path disk
    end)).

(** Execution of a work function.  An exception leaving the signal
    handler surfaces in the code the signal interrupted. *)
Fixpoint perform (body : work) : M unit :=
  match body with
  | WReturn => ret tt
  | WRaise e => raise e
  | WLog lvl msg k => log lvl msg None;; perform k
  | WSighup k => hangup;; perform k
  | WFile path f k => write_file path f;; perform k
  end.

(** [CmdlApp.main_fct] *)
Definition main_fct : M unit :=
  info "Called the default main function implementation.".

(** [self.main_fct()]: the instance attribute set through [configure]
    hides the method of the class. *)
Definition self_main_fct : M unit :=
  w <- get;;
  match attrs w !! "main_fct" with
  | Some (VFun body) => perform body
  | Some v => raise (TypeError ("'" +:+ type_name v +:+ "' object is not callable"))
  | None =>
      match cls_main_fct cls with
      | Some body => perform body
      | None => main_fct
      end
  end.

Definition run : M unit :=
  call "setup_args" [] setup_args;;
  ns <- call "parse_args" [] parse_args;;
  modify (set_args (Some ns));;
  call "setup_logging" [] setup_logging;;
  reload_on_hup <- getattr "reload_on_hup";;
  (if truthy reload_on_hup
   then call "signal.signal" [VInt SIGHUP] (modify (set_sighup true))
   else ret tt);;
  has_cfgfile <- getattr "has_cfgfile";;
  (if truthy has_cfgfile
   then call "load_cfgfile" [] load_cfgfile
   else ret tt);;
  try_except
    (call "main_fct" [] self_main_fct)
    (fun e =>
       match e with
       | KeyboardInterrupt => info "Terminating due to Ctrl-C. Good bye."
       | _ => exception "Main function failed." e
       end).
End Methods.

(** The class itself, with no subclass in between. *)
Definition CmdlApp : Class :=
  {| cls_name := "CmdlApp"; cls_main_fct := None; cls_on_reload := None |}.

End CmdlApp.

(** ** [example.py]: a subclass and the script that runs it *)

Module Example.
Import Py.
Local Abbreviation M := (Py.M World).

(** [class Example(CmdlApp)].  Its [main_fct] prints and sleeps in an
    endless loop; [loop] is what happens to the process while it does. *)
Definition Example (loop : work) : CmdlApp.Class :=
  {| CmdlApp.cls_name := "Example";
     CmdlApp.cls_main_fct := Some loop;
     CmdlApp.cls_on_reload := None |}.

Definition __init__ (loop : work) : M unit :=
  CmdlApp.__init__ (Example loop);;
  CmdlApp.configure
    [("tool_name", VStr "CmdlAppExample"); ("tool_version", VStr "0.1beta")];;
  CmdlApp.configure
    [("has_cfgfile", VBool false); ("reload_on_hup", VBool true)].

(** [Example().run()] *)
Definition main (loop : work) : M unit :=
  __init__ loop;; CmdlApp.run (Example loop).

End Example.

(** ** The process as a whole *)

Inductive termination :=
| Exit (status : Z)
| Signalled (sig : Z).

(** How the interpreter ends once the script is through: status 0 after
    the last statement, the code of an uncaught [SystemExit], status 1
    for any other uncaught exception. *)
Definition exit_status (r : Py.outcome unit) : termination :=
  match r with
  | Py.Ok _ => Exit 0
  | Py.Raise (Py.SystemExit code) => Exit code
  | Py.Raise _ => Exit 1
  | Py.Killed sig => Signalled sig
  end.

(** A tool in the manner of [example.py]: construct the instance, let the
    constructor of the subclass call [configure] any number of times, and
    call [run]. *)
Fixpoint configure_all (calls : list (list (string * Py.value)))
  : Py.M World unit :=
  match calls with
  | [] => Py.ret tt
  | kwargs :: more => CmdlApp.configure kwargs;; configure_all more
  end.

Definition tool (cls : CmdlApp.Class) (calls : list (list (string * Py.value)))
  : Py.M World unit :=
  CmdlApp.__init__ cls;; configure_all calls;; CmdlApp.run cls.

(** ** Vocabulary of the statements *)

Import Py.

(** The instance went through [CmdlApp.__init__]: the four attributes with
    defaults exist. *)
Definition constructed (w : World) : Prop :=
  is_Some (attrs w !! "has_cfgfile") ∧ is_Some (attrs w !! "reload_on_hup") ∧
  is_Some (attrs w !! "tool_name") ∧ is_Some (attrs w !! "tool_version").

(** The instance dictionary after the assignments of [kwargs], first to
    last. *)
Definition assigned (kwargs : list (string * value)) (d : gmap string value)
  : gmap string value :=
  foldl (fun d kv => <[kv.1 := kv.2]> d) d kwargs.

(** The options of the parser [setup_args] builds, given the value of
    [has_cfgfile]: the help option of every parser, then the ones
    declared. *)
Definition flags (has_cfgfile : value) : list Argparse.Argument :=
  Argparse.ArgumentParser ++
  [CmdlApp.arg_verbose; CmdlApp.arg_logfile] ++
  (if eq_True has_cfgfile then [CmdlApp.arg_cfg] else []).

(** The calls of a complete [run], given the values of [reload_on_hup] and
    [has_cfgfile]. *)
Definition plan (reload_on_hup has_cfgfile : value) : list event :=
  [Call "setup_args" []; Call "parse_args" []; Call "setup_logging" []] ++
  (if truthy reload_on_hup then [Call "signal.signal" [VInt CmdlApp.SIGHUP]] else []) ++
  (if truthy has_cfgfile then [Call "load_cfgfile" []] else []) ++
  [Call "main_fct" []].

(** The two halves of [run]: the statements before the [try], and the
    [try] statement around the work function. *)
Definition startup (cls : CmdlApp.Class) : Py.M World unit :=
  call "setup_args" [] (CmdlApp.setup_args cls);;
  ns <- call "parse_args" [] (CmdlApp.parse_args cls);;
  modify (set_args (Some ns));;
  call "setup_logging" [] (CmdlApp.setup_logging cls);;
  reload_on_hup <- CmdlApp.getattr cls "reload_on_hup";;
  (if truthy reload_on_hup
   then call "signal.signal" [VInt CmdlApp.SIGHUP] (modify (set_sighup true))
   else ret tt);;
  has_cfgfile <- CmdlApp.getattr cls "has_cfgfile";;
  (if truthy has_cfgfile
   then call "load_cfgfile" [] (CmdlApp.load_cfgfile cls)
   else ret tt).

Definition guard (e : exn) : Py.M World unit :=
  match e with
  | KeyboardInterrupt => info "Terminating due to Ctrl-C. Good bye."
  | _ => exception "Main function failed." e
  end.

Definition work_phase (cls : CmdlApp.Class) : Py.M World unit :=
  try_except (call "main_fct" [] (CmdlApp.self_main_fct cls)) guard.

(** Steps executed one after the other: each starts in the world the one
    before it left, and only if that one returned; a step that raises, or
    under which the process is killed, ends the sequence with its outcome
    and its world. *)
Fixpoint in_sequence (steps : list (Py.M World unit)) : Py.M World unit :=
  match steps with
  | [] => ret tt
  | step :: more =>
      fun w =>
        match step w with
        | (Ok _, w') => in_sequence more w'
        | stopped => stopped
        end
  end.

(** The steps of [run], given the values of [reload_on_hup] and
    [has_cfgfile]: building the parser, parsing the command line into
    [self.args], setting up logging, registering the handler, loading the
    configuration file, and the [try] statement with the call of the work
    function. *)
Definition stages (cls : CmdlApp.Class) (reload_on_hup has_cfgfile : value)
  : list (Py.M World unit) :=
  [call "setup_args" [] (CmdlApp.setup_args cls);
   (ns <- call "parse_args" [] (CmdlApp.parse_args cls);; modify (set_args (Some ns)));
   call "setup_logging" [] (CmdlApp.setup_logging cls)] ++
  (if truthy reload_on_hup
   then [call "signal.signal" [VInt CmdlApp.SIGHUP] (modify (set_sighup true))]
   else []) ++
  (if truthy has_cfgfile
   then [call "load_cfgfile" [] (CmdlApp.load_cfgfile cls)]
   else []) ++
  [work_phase cls].

(** What every method leaves alone.  The trace is related by [R]: equal
    for a method that calls nothing, extended for one that does. *)
Definition frame (R : relation (list event)) (w w' : World) : Prop :=
  R (trace w) (trace w') /\
  attrs w' = attrs w /\ parser w' = parser w /\ args w' = args w /\
  argv w' = argv w /\ sighup w' = sighup w /\
  (forall c, root w = Some c -> root w' = Some c) /\
  records w `prefix_of` records w'.

(** [m] respects the frame; with [mortal = false] it moreover never ends
    with the process killed. *)
Definition keeps (R : relation (list event)) (mortal : bool) {A}
    (m : Py.M World A) : Prop :=
  forall w, frame R w (m w).2 /\
            (mortal = false -> forall s, (m w).1 <> Killed s).


(** What the namespace holds while the options are consumed. *)
Definition parsed (h : value) (ns : gmap string value) (seen : gset string) : Prop :=
  is_Some (ns !! "verbose") /\ is_Some (ns !! "logfile") /\
  ("cfg" ∈ seen -> exists path, ns !! "cfg" = Some path /\ path <> VNone) /\
  (eq_True h = false -> ns !! "cfg" = None).

(** The value of a configuration attribute, [None] when it is not set. *)
Definition attr (w : World) (key : string) : value :=
  default VNone (attrs w !! key).

(** The value of a parsed option. *)
Definition option_of (ns : gmap string value) (key : string) : value :=
  default VNone (ns !! key).

(** Words of the first pass whose options are options of the parser. *)
Definition known (specs : list Argparse.Argument)
    (items : list (string * Argparse.looks)) : Prop :=
  Forall (fun wk => forall a o e,
            wk.2 = Argparse.Optional (Some a) o e -> a ∈ specs) items.

(** The keywords [setup_logging] makes of the two options. *)
Definition keywords (v lf : value) : Logging.Config :=
  {| Logging.level := if truthy v then Logging.DEBUG else Logging.INFO;
     Logging.format := "%(asctime)s %(levelname)s: %(message)s";
     Logging.filename := if ne_None lf then Some lf else None;
     Logging.filemode := if ne_None lf then Some "a" else None |}.

(** What [setup_logging] configures a fresh root logger with.  The log
    goes to a file when the value of [--logfile] is true in the sense of
    [if]; for [None], the empty string and the empty list it goes to the
    standard error stream. *)
Definition lcfg (ns : gmap string value) : Logging.Config :=
  {| Logging.level :=
       if truthy (option_of ns "verbose") then Logging.DEBUG else Logging.INFO;
     Logging.format := "%(asctime)s %(levelname)s: %(message)s";
     Logging.filename :=
       if truthy (option_of ns "logfile") then Some (option_of ns "logfile") else None;
     Logging.filemode :=
       if truthy (option_of ns "logfile") then Some "a" else None |}.

(** Why the log file the namespace asks for cannot be opened, if it
    cannot. *)
Definition log_failure (w : World) (ns : gmap string value) : option exn :=
  if truthy (option_of ns "logfile")
  then match option_of ns "logfile" with
       | VStr p =>
           if bool_decide (p ∈ locked w) then Some (OSError "Permission denied") else None
       | _ => Some (TypeError "expected str, bytes or os.PathLike object")
       end
  else None.

Definition info_record (c : Logging.Config) (msg : string) : Logging.LogRecord :=
  {| Logging.levelno := Logging.INFO; Logging.message := msg;
     Logging.exc_info := None; Logging.sink := Logging.filename c |}.

Definition error_record (c : Logging.Config) (msg : string) (exc : option exn)
  : Logging.LogRecord :=
  {| Logging.levelno := Logging.ERROR; Logging.message := msg;
     Logging.exc_info := exc; Logging.sink := Logging.filename c |}.

(** The two records [setup_logging] writes. *)
Definition banner (w : World) (ns : gmap string value) : Logging.LogRecord :=
  info_record (lcfg ns)
    (str (attr w "tool_name") +:+ " " +:+ str (attr w "tool_version") +:+ " starting.").

Definition level_note (ns : gmap string value) : Logging.LogRecord :=
  info_record (lcfg ns)
    ("Logging system initialized to level '" +:+
     (if truthy (option_of ns "verbose") then "debug" else "warning") +:+ "'.").

(** The world in which [run] reaches the configuration file: arguments
    parsed into [ns], logging set up on a fresh root logger, the handler
    registered if asked for. *)
Definition prepared (w : World) (ns : gmap string value) : World :=
  let parsed_ :=
    set_args (Some ns)
      (add_event (Call "parse_args" [])
         (set_parser (Some (flags (attr w "has_cfgfile")))
            (add_event (Call "setup_args" []) w))) in
  let logged :=
    add_record (level_note ns)
      (add_record (banner w ns)
         (set_root (Some (lcfg ns))
            (add_event (Call "setup_logging" []) parsed_))) in
  if truthy (attr w "reload_on_hup")
  then set_sighup true (add_event (Call "signal.signal" [VInt CmdlApp.SIGHUP]) logged)
  else logged.

(** Why [open] or [yaml.load] fails on a file, if it does. *)
Definition load_failure (f : option file) : option exn :=
  match f with
  | None => Some (OSError "No such file or directory")
  | Some Unreadable => Some (OSError "Permission denied")
  | Some Malformed => Some (YAMLError "could not parse the document")
  | Some (WellFormed _) => None
  end.

(** Why [open] or [yaml.load] fails for the value of [--cfg], if it
    does: a value that is no string is no path. *)
Definition cfg_failure (w : World) (path : value) : option exn :=
  match path with
  | VStr p => load_failure (fs w !! p)
  | _ => Some (TypeError "expected str, bytes or os.PathLike object")
  end.

(** The log is not written to the file named by [--cfg]. *)
Definition log_apart (ns : gmap string value) : Prop :=
  Logging.filename (lcfg ns) <> Some (option_of ns "cfg").

(** The world in which a tool calls [run]: the process has started with
    the given command line and files, the instance is constructed and the
    constructor of the subclass has made its [configure] calls. *)
Definition launched (cls : CmdlApp.Class) (calls : list (list (string * value)))
    (command_line : list string) (disk : gmap string file) : World :=
  ((CmdlApp.__init__ cls;; configure_all calls) (boot command_line disk)).2.

(** A disk with one well-formed configuration file. *)
Definition sample_disk : gmap string file :=
  {[ "app.yaml" := WellFormed (YMap [("key", YInt 1)]) ]}.

(** The record the [try] statement of [run] writes for exception [e]. *)
Definition guard_record (c : Logging.Config) (e : exn) : Logging.LogRecord :=
  match e with
  | KeyboardInterrupt => info_record c "Terminating due to Ctrl-C. Good bye."
  | _ => error_record c "Main function failed." (Some e)
  end.

(** The world in which the default [on_reload] reaches the loader. *)
Definition reloading (c : Logging.Config) (w : World) : World :=
  add_event (Call "load_cfgfile" [])
    (add_record (info_record c "Reloading configuration due to SIGHUP signal.") w).

(** Two worlds that differ at most in the instance dictionary. *)
Definition same_but_attrs (w w' : World) : Prop :=
  parser w' = parser w /\ args w' = args w /\ cfg w' = cfg w /\
  argv w' = argv w /\ fs w' = fs w /\ locked w' = locked w /\ root w' = root w /\
  records w' = records w /\ sighup w' = sighup w /\ trace w' = trace w.

(** The exception of [self.args.cfg] when the parser has no [--cfg]. *)
Definition no_cfg : exn :=
  AttributeError "'Namespace' object has no attribute 'cfg'".


(** * Facts *)

(** ** The monad *)

Section MonadFacts.
Context {A B : Type}.
Implicit Types (m : Py.M World A) (f : A -> Py.M World B).

Lemma bind_Ok m f w a w' : m w = (Ok a, w') -> (x <- m;; f x) w = f a w'.
Proof. unfold bind. now intros ->. Qed.

Lemma bind_Raise m f w e w' : m w = (Raise e, w') -> (x <- m;; f x) w = (Raise e, w').
Proof. unfold bind. now intros ->. Qed.

Lemma bind_Killed m f w s w' : m w = (Killed s, w') -> (x <- m;; f x) w = (Killed s, w').
Proof. unfold bind. now intros ->. Qed.
End MonadFacts.

(** ** [configure] *)

Section ConfigureFacts.
Implicit Types (kwargs : list (string * value)) (w : World).

Lemma assigned_other kwargs d k :
  k ∉ kwargs.*1 -> assigned kwargs d !! k = d !! k.
Proof.
  revert d. induction kwargs as [|[k' v'] rest IH]; intros d Hk; [done|].
  cbn in Hk. apply not_elem_of_cons in Hk as [Hne Hk].
  unfold assigned in *. cbn. rewrite IH by done. now apply lookup_insert_ne.
Qed.

Lemma assigned_lookup kwargs d k v :
  NoDup kwargs.*1 -> (k, v) ∈ kwargs -> assigned kwargs d !! k = Some v.
Proof.
  revert d. induction kwargs as [|[k' v'] rest IH]; intros d Hnd Hin.
  - now apply elem_of_nil in Hin.
  - cbn in Hnd. apply NoDup_cons in Hnd as [Hfresh Hnd].
    apply elem_of_cons in Hin as [Heq|Hin].
    + injection Heq as -> ->. unfold assigned. cbn.
      fold (assigned rest (<[k':=v']> d)).
      rewrite assigned_other by done. apply lookup_insert_eq.
    + unfold assigned in *. cbn. now apply IH.
Qed.

Lemma configure_recognized kwargs w :
  Forall (fun k => k ∈ CmdlApp.cfg_keys) kwargs.*1 ->
  CmdlApp.configure kwargs w = (Ok tt, set_attrs (assigned kwargs) w).
Proof.
  revert w. induction kwargs as [|[k v] rest IH]; intros w Hrec.
  - destruct w; reflexivity.
  - cbn in Hrec. apply Forall_cons in Hrec as [Hk Hrec].
    cbn. rewrite bool_decide_eq_true_2 by done.
    erewrite bind_Ok by reflexivity. now rewrite IH.
Qed.

Lemma configure_rejected kwargs k v rest w :
  Forall (fun k => k ∈ CmdlApp.cfg_keys) kwargs.*1 ->
  k ∉ CmdlApp.cfg_keys ->
  CmdlApp.configure (kwargs ++ (k, v) :: rest) w =
    (Raise (ValueError ("Invalid config parameter '" +:+ k +:+ "'.")),
     set_attrs (assigned kwargs) w).
Proof.
  revert w. induction kwargs as [|[k' v'] more IH]; intros w Hrec Hk.
  - cbn. rewrite bool_decide_eq_false_2 by done. destruct w; reflexivity.
  - cbn in Hrec. apply Forall_cons in Hrec as [Hk' Hrec].
    cbn. rewrite bool_decide_eq_true_2 by done.
    erewrite bind_Ok by reflexivity. now rewrite IH.
Qed.

Lemma getattr_lookup cls k v w :
  attrs w !! k = Some v -> CmdlApp.getattr cls k w = (Ok v, w).
Proof. intros H. unfold CmdlApp.getattr, bind, get. cbn. now rewrite H. Qed.
End ConfigureFacts.

(** C2.  Let [kwargs] be keywords with distinct names that are all among
    the five recognized configuration keys.  Then [configure] succeeds and
    every one of the values can be read back from the instance.  If the
    same keywords are followed by a key that is not recognized (and by
    anything after it), [configure] raises the configuration error whose
    message names that key, and the instance is left exactly as the
    recognized keywords before it set it: keys are applied one at a time
    and the earlier ones stay applied. *)
Theorem configure_applies_until_unrecognized
    (cls : CmdlApp.Class) (kwargs : list (string * value)) (w : World) :
  NoDup kwargs.*1 ->
  Forall (fun k => k ∈ CmdlApp.cfg_keys) kwargs.*1 ->
  exists w',
    CmdlApp.configure kwargs w = (Ok tt, w') /\
    (forall k v, (k, v) ∈ kwargs -> CmdlApp.getattr cls k w' = (Ok v, w')) /\
    (forall k v rest, k ∉ CmdlApp.cfg_keys ->
       CmdlApp.configure (kwargs ++ (k, v) :: rest) w =
         (Raise (ValueError ("Invalid config parameter '" +:+ k +:+ "'.")), w')).
Proof.
  intros Hnd Hrec. exists (set_attrs (assigned kwargs) w). split; [|split].
  - now apply configure_recognized.
  - intros k v Hin. apply getattr_lookup. cbn. now apply assigned_lookup.
  - intros k v rest Hk. now apply configure_rejected.
Qed.

Lemma configure_applies_until_unrecognized_witness :
  let w := boot [] sample_disk in
  let kwargs := [("tool_name", VStr "probe"); ("has_cfgfile", VBool true)] in
  exists w',
    CmdlApp.configure kwargs w = (Ok tt, w') /\
    CmdlApp.getattr CmdlApp.CmdlApp "tool_name" w' = (Ok (VStr "probe"), w') /\
    CmdlApp.getattr CmdlApp.CmdlApp "has_cfgfile" w' = (Ok (VBool true), w') /\
    CmdlApp.configure (kwargs ++ [("use_cfgfile", VBool true); ("tool_version", VStr "1")]) w =
      (Raise (ValueError "Invalid config parameter 'use_cfgfile'."), w').
Proof.
  intros w kwargs.
  assert (NoDup kwargs.*1) as Hnd by compute_done.
  assert (Forall (fun k => k ∈ CmdlApp.cfg_keys) kwargs.*1) as Hrec
    by compute_done.
  assert ("use_cfgfile" ∉ CmdlApp.cfg_keys) as Hbad by compute_done.
  destruct (configure_applies_until_unrecognized CmdlApp.CmdlApp kwargs w Hnd Hrec)
    as (w' & Hok & Hread & Hfail).
  exists w'. split; [exact Hok|]. split; [|split].
  - apply Hread. unfold kwargs. set_solver.
  - apply Hread. unfold kwargs. set_solver.
  - exact (Hfail "use_cfgfile" (VBool true) [("tool_version", VStr "1")] Hbad).
Defined.

(** ** What the methods leave alone *)

Section FrameFacts.
Context (R : relation (list event)) `{!PreOrder R}.

Lemma frame_refl w : frame R w w.
Proof. unfold frame. split_and!; try done. Qed.

Lemma frame_trans w1 w2 w3 : frame R w1 w2 -> frame R w2 w3 -> frame R w1 w3.
Proof.
  unfold frame. intros (?&?&?&?&?&?&?&?) (?&?&?&?&?&?&?&?).
  split_and!; try congruence; try (by etrans); eauto.
Qed.

Context (mortal : bool).

Lemma keeps_ret {A} (a : A) : keeps R mortal (ret a).
Proof. intros w. split; [apply frame_refl|]. cbn. congruence. Qed.

Lemma keeps_raise {A} e : keeps R mortal (@raise World A e).
Proof. intros w. split; [apply frame_refl|]. cbn. congruence. Qed.

Lemma keeps_get : keeps R mortal (@get World).
Proof. intros w. split; [apply frame_refl|]. cbn. congruence. Qed.

Lemma keeps_modify f : (forall w, frame R w (f w)) -> keeps R mortal (modify f).
Proof. intros Hf w. split; [apply Hf|]. cbn. congruence. Qed.

Lemma keeps_bind {A B} (m : Py.M World A) (f : A -> Py.M World B) :
  keeps R mortal m -> (forall a, keeps R mortal (f a)) ->
  keeps R mortal (x <- m;; f x).
Proof.
  intros Hm Hf w. destruct (Hm w) as [Hfr Hk]. unfold bind.
  destruct (m w) as [[a|e|s] w1]; cbn in *.
  - destruct (Hf a w1) as [Hfr' Hk']. split; [by eapply frame_trans|done].
  - split; [done|congruence].
  - split; [done|]. intros Hm' s' _. by eapply Hk.
Qed.

Lemma keeps_try_except {A} (m : Py.M World A) (h : exn -> Py.M World A) :
  keeps R mortal m -> (forall e, keeps R mortal (h e)) ->
  keeps R mortal (try_except m h).
Proof.
  intros Hm Hh w. destruct (Hm w) as [Hfr Hk]. unfold try_except.
  destruct (m w) as [[a|e|s] w1]; cbn in *.
  - split; [done|congruence].
  - destruct (Hh e w1) as [Hfr' Hk']. split; [by eapply frame_trans|done].
  - split; [done|]. intros Hm' s' _. by eapply Hk.
Qed.

Lemma frame_set_root_fresh c w : root w = None -> frame R w (set_root (Some c) w).
Proof. intros H. unfold frame. cbn. split_and!; try done. congruence. Qed.

Lemma frame_add_record r w : frame R w (add_record r w).
Proof. unfold frame. cbn. split_and!; try done. by apply prefix_app_r. Qed.

Lemma frame_set_cfg c w : frame R w (set_cfg c w).
Proof. unfold frame. cbn. split_and!; done. Qed.

Lemma frame_set_fs f w : frame R w (set_fs f w).
Proof. unfold frame. cbn. split_and!; done. Qed.

Lemma open_log_outcome f w :
  open_log f w = (Ok tt, w) \/ exists e, open_log f w = (Raise e, w).
Proof.
  destruct f; cbn; eauto.
  unfold bind, get. cbn. case_bool_decide; cbn; eauto.
Qed.

Lemma keeps_basicConfig kw : keeps R mortal (basicConfig kw).
Proof.
  intros w.
  change (basicConfig kw w) with
    ((match root w with
      | Some _ => ret tt
      | None =>
          match Logging.filename kw with
          | Some f => if truthy f then open_log f else ret tt
          | None => ret tt
          end;; modify (set_root (Some (Logging.effective kw)))
      end) w).
  destruct (root w) eqn:Hroot.
  - split; [apply frame_refl|cbn; congruence].
  - assert (forall m : Py.M World unit,
              (m w = (Ok tt, w) \/ exists e, m w = (Raise e, w)) ->
              frame R w ((m;; modify (set_root (Some (Logging.effective kw)))) w).2 /\
              (mortal = false ->
               forall s, ((m;; modify (set_root (Some (Logging.effective kw)))) w).1
                         <> Killed s)) as Hstep.
    { intros m [Hm|[e Hm]]; unfold bind; rewrite Hm; cbn.
      - split; [by apply frame_set_root_fresh|congruence].
      - split; [apply frame_refl|congruence]. }
    destruct (Logging.filename kw) as [f|]; [destruct (truthy f)|].
    + apply Hstep, open_log_outcome.
    + apply Hstep. by left.
    + apply Hstep. by left.
Qed.

Lemma keeps_log lvl msg exc : keeps R mortal (log lvl msg exc).
Proof.
  apply keeps_bind; [apply keeps_basicConfig|]. intros _.
  apply keeps_bind; [apply keeps_get|]. intros w.
  destruct (root w) as [c|]; [|apply keeps_ret].
  destruct (Logging.level c <=? lvl)%Z; [|apply keeps_ret].
  apply keeps_modify, frame_add_record.
Qed.

Lemma keeps_getattr cls key : keeps R mortal (CmdlApp.getattr cls key).
Proof.
  apply keeps_bind; [apply keeps_get|]. intros w.
  destruct (attrs w !! key); [apply keeps_ret|apply keeps_raise].
Qed.

Lemma keeps_args_attr cls key : keeps R mortal (CmdlApp.args_attr cls key).
Proof.
  apply keeps_bind; [apply keeps_get|]. intros w.
  destruct (args w) as [ns|]; [|apply keeps_raise].
  destruct (ns !! key); [apply keeps_ret|apply keeps_raise].
Qed.

Lemma keeps_open_and_load path : keeps R mortal (CmdlApp.open_and_load path).
Proof.
  destruct path; try apply keeps_raise.
  apply keeps_bind; [apply keeps_get|]. intros w.
  destruct (fs w !! s) as [[| |doc]|]; try apply keeps_raise. apply keeps_ret.
Qed.

Lemma keeps_load_cfgfile cls : keeps R mortal (CmdlApp.load_cfgfile cls).
Proof.
  apply keeps_bind; [apply keeps_args_attr|]. intros path.
  apply keeps_bind; [apply keeps_log|]. intros _.
  apply keeps_try_except.
  - apply keeps_bind; [apply keeps_args_attr|]. intros path'.
    apply keeps_bind; [by apply keeps_open_and_load|]. intros doc.
    apply keeps_modify. intros w. apply frame_set_cfg.
  - intros e.
    apply keeps_bind; [apply keeps_args_attr|]. intros verbose.
    apply keeps_bind; [apply keeps_args_attr|]. intros path'.
    apply keeps_bind; [|intros _; apply keeps_raise].
    destruct (truthy verbose); apply keeps_log.
Qed.

Lemma keeps_setup_logging cls : keeps R mortal (CmdlApp.setup_logging cls).
Proof.
  apply keeps_bind; [apply keeps_args_attr|]. intros verbose.
  destruct (truthy verbose).
  all: apply keeps_bind; [apply keeps_args_attr|]; intros logfile.
  all: apply keeps_bind; [apply keeps_basicConfig|]; intros _.
  all: apply keeps_bind; [apply keeps_getattr|]; intros tool_name.
  all: apply keeps_bind; [apply keeps_getattr|]; intros tool_version.
  all: apply keeps_bind; [apply keeps_log|]; intros _; apply keeps_log.
Qed.
End FrameFacts.

Section TraceFacts.
Context (mortal : bool).
Local Abbreviation grows := (keeps prefix mortal).

Lemma frame_add_event e w : frame prefix w (add_event e w).
Proof. unfold frame. cbn. split_and!; try done. by apply prefix_app_r. Qed.

Lemma grows_call {A} callee actuals (body : Py.M World A) :
  grows body -> grows (call callee actuals body).
Proof.
  intros Hb. apply keeps_bind; [apply _| |by intros _].
  apply keeps_modify. intros w. apply frame_add_event.
Qed.

Lemma grows_on_reload cls : grows (CmdlApp.on_reload cls).
Proof.
  apply keeps_bind; [apply _|apply keeps_getattr; apply _|]. intros r.
  destruct (truthy r); [|apply keeps_ret; apply _].
  apply keeps_bind; [apply _|apply keeps_log; apply _|]. intros _.
  apply grows_call, keeps_load_cfgfile. apply _.
Qed.

Lemma grows_perform_hook cls body : grows (CmdlApp.perform_hook cls body).
Proof.
  induction body as [|e|lvl msg k IH|k IH|k IH]; cbn.
  - apply keeps_ret; apply _.
  - apply keeps_raise; apply _.
  - apply keeps_bind; [apply _|apply keeps_log; apply _|by intros _].
  - apply keeps_bind; [apply _| |by intros _].
    apply grows_call, keeps_load_cfgfile. apply _.
  - apply keeps_bind; [apply _| |by intros _].
    apply grows_call, grows_on_reload.
Qed.

Lemma grows_self_on_reload cls : grows (CmdlApp.self_on_reload cls).
Proof.
  unfold CmdlApp.self_on_reload.
  destruct (CmdlApp.cls_on_reload cls);
    [apply grows_perform_hook|apply grows_on_reload].
Qed.

Lemma grows_sighup_handler cls sig stack :
  grows (CmdlApp.sighup_handler cls sig stack).
Proof.
  unfold CmdlApp.sighup_handler.
  destruct (sig =? CmdlApp.SIGHUP)%Z; [|apply keeps_ret; apply _].
  apply keeps_bind; [apply _|apply keeps_getattr; apply _|]. intros r.
  destruct (truthy r); [|apply keeps_ret; apply _].
  apply grows_call, grows_self_on_reload.
Qed.
End TraceFacts.

Section WorkFacts.
Local Abbreviation evolves := (keeps prefix true).

Lemma evolves_hangup cls : evolves (CmdlApp.hangup cls).
Proof.
  apply keeps_bind; [apply _|apply keeps_get; apply _|]. intros w.
  destruct (sighup w).
  - apply grows_call, grows_sighup_handler.
  - intros w'. cbn. split; [apply frame_refl; apply _|done].
Qed.

Lemma evolves_perform cls body : evolves (CmdlApp.perform cls body).
Proof.
  induction body as [|e|lvl msg k IH|k IH|path f k IH]; cbn.
  - apply keeps_ret; apply _.
  - apply keeps_raise; apply _.
  - apply keeps_bind; [apply _|apply keeps_log; apply _|by intros _].
  - apply keeps_bind; [apply _|apply evolves_hangup|by intros _].
  - apply keeps_bind; [apply _| |by intros _].
    apply keeps_modify. intros w. apply frame_set_fs; apply _.
Qed.

Lemma evolves_self_main_fct cls : evolves (CmdlApp.self_main_fct cls).
Proof.
  apply keeps_bind; [apply _|apply keeps_get; apply _|]. intros w.
  destruct (attrs w !! "main_fct") as [[]|];
    try (apply keeps_raise; apply _); try apply evolves_perform.
  destruct (CmdlApp.cls_main_fct cls); [apply evolves_perform|].
  apply keeps_log; apply _.
Qed.

Lemma evolves_work_phase cls : evolves (work_phase cls).
Proof.
  apply keeps_try_except; [apply _| |].
  - apply grows_call, evolves_self_main_fct.
  - intros []; apply keeps_log; apply _.
Qed.
End WorkFacts.

(** ** Parsing the command line *)

Local Open Scope list_scope.

Section ConsumeFacts.
Import Argparse.
Variable specs : list Argument.
Variable P : gmap string value * gset string -> Prop.
Hypothesis P_take : forall a v st st',
  a ∈ specs -> P st -> take a v st = inl st' -> P st'.

Lemma option_strings_elem s a : (s, a) ∈ option_strings specs -> a ∈ specs.
Proof.
  unfold option_strings. rewrite list_elem_of_In, in_flat_map.
  intros (x & Hx & Hin). apply list_elem_of_In in Hx.
  cbn in Hin. destruct Hin as [[= _ <-]|[[= _ <-]|[]]]; exact Hx.
Qed.

Lemma lookup_option_elem s a : lookup_option specs s = Some a -> a ∈ specs.
Proof.
  unfold lookup_option.
  destruct (List.find _ _) as [[s' a']|] eqn:Hfind; [|done].
  intros [= <-]. apply find_some in Hfind as [Hin _].
  apply (option_strings_elem s'). by apply list_elem_of_In.
Qed.

Lemma get_option_tuples_elem w a s e :
  (a, s, e) ∈ get_option_tuples specs w -> a ∈ specs.
Proof.
  unfold get_option_tuples.
  destruct (second_is_dash w).
  - destruct (match split_at "=" w with Some (p, e0) => (p, Some e0) | None => (w, None) end)
      as [prefix explicit].
    rewrite list_elem_of_In, in_flat_map. intros ([s' a'] & Hin & Hx).
    apply list_elem_of_In, option_strings_elem in Hin. cbn in Hx.
    destruct (String.prefix _ _); cbn in Hx; [|done].
    destruct Hx as [[= <- _ _]|[]]. exact Hin.
  - rewrite list_elem_of_In, in_flat_map. intros ([s' a'] & Hin & Hx).
    apply list_elem_of_In, option_strings_elem in Hin. cbn in Hx.
    destruct (String.eqb _ _); cbn in Hx.
    + destruct Hx as [[= <- _ _]|[]]. exact Hin.
    + destruct (String.prefix _ _); cbn in Hx; [|done].
      destruct Hx as [[= <- _ _]|[]]. exact Hin.
Qed.

Lemma parse_optional_elem w a o e :
  parse_optional specs w = Optional (Some a) o e -> a ∈ specs.
Proof.
  unfold parse_optional.
  destruct (String.eqb w ""); [done|].
  destruct (negb _); [done|].
  destruct (lookup_option specs w) as [a0|] eqn:Hexact.
  { intros [= <- _ _]. by eapply lookup_option_elem. }
  destruct (_ =? _)%nat; [done|].
  destruct (split_at "=" w) as [[o' e']|].
  - destruct (lookup_option specs o') as [a0|] eqn:Hjoined.
    { intros [= <- _ _]. by eapply lookup_option_elem. }
    destruct (get_option_tuples specs w) as [|[[a1 s1] e1] [|]] eqn:Htuples; try done.
    + by repeat case_match.
    + intros [= <- _ _]. apply (get_option_tuples_elem w a1 s1 e1).
      rewrite Htuples. by left.
  - destruct (get_option_tuples specs w) as [|[[a1 s1] e1] [|]] eqn:Htuples; try done.
    + by repeat case_match.
    + intros [= <- _ _]. apply (get_option_tuples_elem w a1 s1 e1).
      rewrite Htuples. by left.
Qed.

Lemma pattern_known argv items : pattern specs argv = Some items -> known specs items.
Proof.
  revert items. induction argv as [|w rest IH]; intros items; cbn.
  - intros [= <-]. constructor.
  - destruct (String.eqb w "--").
    + intros [= <-]. constructor; [done|].
      apply Forall_forall. intros [x k] Hin.
      apply list_elem_of_fmap in Hin as (y & [= _ ->] & _). done.
    + destruct (parse_optional specs w) eqn:Hw; try done.
      all: destruct (pattern specs rest) as [more|]; [|done].
      all: intros [= <-]; constructor; [|by apply IH].
      all: cbn; intros a0 o0 e0 Heq; try done.
      injection Heq as -> _ _. by eapply parse_optional_elem.
Qed.

Lemma chain_elem ex : forall a o taken waiting,
  a ∈ specs -> chain specs a o ex = Some (taken, waiting) ->
  Forall (fun av => av.1 ∈ specs) taken /\
  (forall a', waiting = Some a' -> a' ∈ specs).
Proof.
  induction ex as [|c ex IH]; intros a o taken waiting Ha; cbn.
  - destruct (act a); [|by destruct (second_is_dash o)..].
    intros [= <- <-]. split; [by repeat constructor|done].
  - destruct (act a).
    { intros [= <- <-]. split; [by repeat constructor|done]. }
    all: destruct (second_is_dash o); [done|].
    all: destruct (lookup_option specs _) as [a'|] eqn:Hnext; [|done].
    all: apply lookup_option_elem in Hnext.
    all: destruct ex as [|c' ex'].
    all: try (intros [= <- <-]; split; [by repeat constructor|by intros ? [= <-]]).
    all: destruct (chain specs a' _ _) as [[taken' waiting']|] eqn:Hrest; [|done].
    all: intros [= <- <-].
    all: destruct (IH _ _ _ _ Hnext Hrest) as [Htaken Hwaiting].
    all: split; [by constructor|done].
Qed.

Lemma take_all_invariant taken : forall st st',
  Forall (fun av => av.1 ∈ specs) taken -> P st ->
  take_all taken st = inl st' -> P st'.
Proof.
  induction taken as [|[a v] more IH]; intros st st' Hall HP; cbn.
  - by intros [= <-].
  - apply Forall_cons in Hall as [Ha Hall].
    destruct (take a v st) as [st1|code] eqn:Htake; [|done].
    apply IH; [done|]. by eapply P_take.
Qed.

Lemma consume_invariant n : forall items st extras ns,
  (length items <= n)%nat -> known specs items -> P st ->
  consume specs items st extras = inl ns ->
  exists seen, P (ns, seen) /\ forallb (supplied seen) specs = true.
Proof.
  induction n as [|n IH]; intros items st extras ns Hlen Hknown HP.
  { destruct items; [|cbn in Hlen; lia]. cbn. unfold finish.
    destruct (forallb _ _) eqn:Hreq; [|done]. destruct extras; [done|].
    intros [= <-]. exists st.2. by destruct st. }
  destruct items as [|[w k] rest].
  { cbn. unfold finish.
    destruct (forallb _ _) eqn:Hreq; [|done]. destruct extras; [done|].
    intros [= <-]. exists st.2. by destruct st. }
  apply Forall_cons in Hknown as [Hk Hrest]. cbn in Hlen, Hk.
  assert (forall st0 x, consume specs rest st0 x = inl ns -> P st0 ->
            exists seen, P (ns, seen) /\ forallb (supplied seen) specs = true)
    as Hnext.
  { intros st0 x Hc HP0. apply (IH rest st0 x ns); [lia|done|done|done]. }
  destruct k as [| |[a|] o e|]; cbn [consume]; try (intros Hc; by apply (Hnext st true)).
  specialize (Hk a o e eq_refl).
  destruct (match e with Some ex => chain specs a o ex | None => Some ([], Some a) end)
    as [[taken [waiting|]]|] eqn:Hchain; [| |done].
  - assert (Forall (fun av => av.1 ∈ specs) taken /\ waiting ∈ specs) as [Htaken Hw].
    { destruct e as [ex|].
      - destruct (chain_elem ex a o taken (Some waiting) Hk Hchain) as [? Hw].
        split; [done|by apply Hw].
      - injection Hchain as <- <-. split; [constructor|done]. }
    destruct (act waiting).
    + destruct rest as [|[v kv] rest']; [done|].
      destruct kv; try done.
      destruct (take_all _ st) as [st1|code] eqn:Htake; [|done].
      intros Hc. apply (IH rest' st1 extras ns); [cbn in Hlen; lia| |  |done].
      * by apply Forall_cons in Hrest as [_ ?].
      * eapply take_all_invariant; [|exact HP|exact Htake].
        apply Forall_app. split; [done|by repeat constructor].
    + destruct (take_all _ st) as [st1|code] eqn:Htake; [|done].
      intros Hc. apply (Hnext st1 extras Hc).
      eapply take_all_invariant; [|exact HP|exact Htake].
      apply Forall_app. split; [done|by repeat constructor].
    + destruct (take_all _ st) as [st1|code] eqn:Htake; [|done].
      intros Hc. apply (Hnext st1 extras Hc).
      eapply take_all_invariant; [|exact HP|exact Htake].
      apply Forall_app. split; [done|by repeat constructor].
  - assert (Forall (fun av => av.1 ∈ specs) taken) as Htaken.
    { destruct e as [ex|]; [|done].
      by destruct (chain_elem ex a o taken None Hk Hchain). }
    destruct (take_all _ st) as [st1|code] eqn:Htake; [|done].
    intros Hc. apply (Hnext st1 extras Hc).
    by eapply take_all_invariant.
Qed.

Lemma parse_args_invariant argv ns :
  P (defaults specs, ∅) -> parse_args specs argv = Ok ns ->
  exists seen, P (ns, seen) /\ forallb (supplied seen) specs = true.
Proof.
  intros HP. unfold parse_args.
  destruct (pattern specs argv) as [items|] eqn:Hpattern; [|done].
  destruct (consume _ _ _ _) as [ns'|code] eqn:Hc; [|done].
  intros [= <-].
  eapply (consume_invariant (length items)); [done| |exact HP|exact Hc].
  by eapply pattern_known.
Qed.

Lemma take_all_code taken : forall st code,
  take_all taken st = inr code -> code = 0.
Proof.
  induction taken as [|[a v] more IH]; intros st code; cbn; [done|].
  destruct (take a v st) as [st1|code'] eqn:Htake.
  - apply IH.
  - intros [= <-]. unfold take in Htake. by destruct (act a); simplify_eq.
Qed.

(** The parser ends the process in two ways: status 2 after an error,
    status 0 after the help. *)
Lemma consume_code n : forall items st extras code,
  (length items <= n)%nat ->
  consume specs items st extras = inr code -> code = 0 \/ code = 2.
Proof.
  induction n as [|n IH]; intros items st extras code Hlen.
  { destruct items; [|cbn in Hlen; lia]. cbn. unfold finish.
    repeat case_match; intros [= <-]; by right. }
  destruct items as [|[w k] rest].
  { cbn. unfold finish. repeat case_match; intros [= <-]; by right. }
  cbn in Hlen.
  assert (forall st0 x, consume specs rest st0 x = inr code -> code = 0 \/ code = 2)
    as Hnext by (intros st0 x; apply IH; lia).
  destruct k as [| |[a|] o e|]; cbn [consume]; try apply Hnext.
  destruct (match e with Some ex => chain specs a o ex | None => Some ([], Some a) end)
    as [[taken [waiting|]]|]; [| |intros [= <-]; by right].
  - destruct (act waiting).
    + destruct rest as [|[v kv] rest']; [intros [= <-]; by right|].
      destruct kv; try (intros [= <-]; by right).
      destruct (take_all _ st) as [st1|code'] eqn:Htake.
      * apply IH. cbn in Hlen. lia.
      * intros [= <-]. left. by eapply take_all_code.
    + destruct (take_all _ st) as [st1|code'] eqn:Htake; [apply Hnext|].
      intros [= <-]. left. by eapply take_all_code.
    + destruct (take_all _ st) as [st1|code'] eqn:Htake; [apply Hnext|].
      intros [= <-]. left. by eapply take_all_code.
  - destruct (take_all _ st) as [st1|code'] eqn:Htake; [apply Hnext|].
    intros [= <-]. left. by eapply take_all_code.
Qed.

Lemma parse_args_code argv e :
  parse_args specs argv = Raise e -> e = SystemExit 0 \/ e = SystemExit 2.
Proof.
  unfold parse_args. destruct (pattern specs argv) as [items|]; [|intros [= <-]; by right].
  destruct (consume _ _ _ _) as [ns|code] eqn:Hc; [done|].
  intros [= <-]. by destruct (consume_code (length items) _ _ _ _ (le_n _) Hc) as [->| ->]; [left|right].
Qed.

Lemma parse_args_outcome argv :
  (exists ns, parse_args specs argv = Ok ns) \/
  (exists code, parse_args specs argv = Raise (SystemExit code)).
Proof.
  unfold parse_args. destruct (pattern specs argv); [|right; by eexists].
  destruct (consume _ _ _ _); [left|right]; by eexists.
Qed.
End ConsumeFacts.

Section FlagsFacts.
Import Argparse.

Lemma flags_elem h a :
  a ∈ flags h ->
  a = help_option \/ a = CmdlApp.arg_verbose \/ a = CmdlApp.arg_logfile \/
  (a = CmdlApp.arg_cfg /\ eq_True h = true).
Proof. unfold flags, ArgumentParser. destruct (eq_True h); cbn; set_solver. Qed.

Lemma value_of_not_None s : value_of s <> VNone.
Proof. unfold value_of. by destruct (String.eqb s "--"). Qed.

Lemma parsed_defaults h : parsed h (defaults (flags h)) ∅.
Proof.
  unfold parsed, flags, defaults, is_Some.
  destruct (eq_True h); cbn; split_and!; try done; try set_solver.
  all: eexists; by simplify_map_eq.
Qed.

Lemma parsed_take h a v st st' :
  a ∈ flags h -> parsed h st.1 st.2 -> take a v st = inl st' -> parsed h st'.1 st'.2.
Proof.
  intros Ha (Hv & Hl & Hc1 & Hc2).
  apply flags_elem in Ha as [->|[->|[->|[-> Hh]]]]; cbn; try done.
  all: intros [= <-]; unfold parsed; cbn.
  all: rewrite ?lookup_insert_eq, ?lookup_insert_ne by done.
  all: split_and!; try done.
  - intros ?. apply Hc1. set_solver.
  - intros ?. apply Hc1. set_solver.
  - intros _. eexists. split; [done|apply value_of_not_None].
  - congruence.
Qed.

Lemma parse_args_flags h argv ns :
  parse_args (flags h) argv = Ok ns ->
  is_Some (ns !! "verbose") /\ is_Some (ns !! "logfile") /\
  if eq_True h then exists path, ns !! "cfg" = Some path /\ path <> VNone
  else ns !! "cfg" = None.
Proof.
  intros Hns.
  destruct (parse_args_invariant (flags h) (fun st => parsed h st.1 st.2)
              (parsed_take h) argv ns (parsed_defaults h) Hns)
    as (seen & (Hv & Hl & Hc1 & Hc2) & Hreq).
  split_and!; try done.
  destruct (eq_True h) eqn:Hh; [|by apply Hc2].
  apply Hc1. unfold flags in Hreq. rewrite Hh in Hreq. cbn in Hreq.
  by case_bool_decide.
Qed.






End FlagsFacts.

(** ** The steps of [run] *)

Lemma run_phases cls w : CmdlApp.run cls w = (startup cls;; work_phase cls) w.
Proof.
  unfold CmdlApp.run, startup, work_phase, guard, bind.
  repeat (case_match; simplify_eq; try reflexivity).
Qed.

Section StepFacts.
Variable cls : CmdlApp.Class.

Lemma setup_args_flags w h :
  attrs w !! "has_cfgfile" = Some h ->
  CmdlApp.setup_args cls w = (Ok tt, set_parser (Some (flags h)) w).
Proof.
  intros H. unfold CmdlApp.setup_args.
  do 3 (erewrite bind_Ok by reflexivity).
  erewrite bind_Ok by (apply getattr_lookup; cbn; exact H).
  unfold flags. destruct (eq_True h); reflexivity.
Qed.

Lemma args_attr_lookup w ns k v :
  args w = Some ns -> ns !! k = Some v -> CmdlApp.args_attr cls k w = (Ok v, w).
Proof.
  intros Ha Hk. unfold CmdlApp.args_attr, bind, get. cbn. now rewrite Ha, Hk.
Qed.

Lemma basicConfig_unfold kw w :
  basicConfig kw w =
    match root w with
    | Some _ => (Ok tt, w)
    | None =>
        (match Logging.filename kw with
         | Some f => if truthy f then open_log f else ret tt
         | None => ret tt
         end;; modify (set_root (Some (Logging.effective kw)))) w
    end.
Proof. unfold basicConfig at 1. unfold bind at 1, get. cbv beta iota. by destruct (root w). Qed.

Lemma basicConfig_again kw c w :
  root w = Some c -> basicConfig kw w = (Ok tt, w).
Proof. intros H. by rewrite basicConfig_unfold, H. Qed.

Lemma keywords_effective ns v lf :
  ns !! "verbose" = Some v -> ns !! "logfile" = Some lf ->
  Logging.effective (keywords v lf) = lcfg ns.
Proof.
  intros Hv Hlf. unfold lcfg, option_of, keywords, Logging.effective.
  rewrite Hv, Hlf. cbn. destruct lf as [|[]|z|p|body|]; cbn; try reflexivity.
  - by destruct (z =? 0)%Z.
  - by destruct (String.eqb p "").
Qed.

Lemma basicConfig_keywords w ns v lf :
  root w = None -> ns !! "verbose" = Some v -> ns !! "logfile" = Some lf ->
  basicConfig (keywords v lf) w =
    match log_failure w ns with
    | Some e => (Raise e, w)
    | None => (Ok tt, set_root (Some (lcfg ns)) w)
    end.
Proof.
  intros Hroot Hv Hlf. rewrite basicConfig_unfold, Hroot.
  rewrite (keywords_effective ns v lf Hv Hlf).
  unfold log_failure, option_of, keywords. rewrite Hlf. cbn [Logging.filename default].
  unfold id.
  destruct lf as [|[]|z|p|body|]; cbn [ne_None truthy]; try reflexivity.
  - by destruct (z =? 0)%Z.
  - destruct (String.eqb p ""); cbn [negb]; [reflexivity|].
    unfold bind, open_log, get. cbn. by case_bool_decide.
Qed.

Lemma log_emitted lvl msg exc c w :
  root w = Some c -> (Logging.level c <= lvl)%Z ->
  log lvl msg exc w =
    (Ok tt, add_record {| Logging.levelno := lvl; Logging.message := msg;
                          Logging.exc_info := exc;
                          Logging.sink := Logging.filename c |} w).
Proof.
  intros Hr Hl. unfold log.
  erewrite bind_Ok by (by eapply basicConfig_again).
  unfold bind, get. cbn. rewrite Hr.
  by rewrite (proj2 (Z.leb_le _ _) Hl).
Qed.

Lemma info_emitted msg c w :
  root w = Some c -> (Logging.level c <= Logging.INFO)%Z ->
  info msg w = (Ok tt, add_record (info_record c msg) w).
Proof. apply log_emitted. Qed.

Lemma lcfg_level ns : (Logging.level (lcfg ns) <= Logging.INFO)%Z.
Proof. unfold lcfg. cbn. by destruct (truthy _). Qed.

(** [setup_logging] on a fresh root logger: it stops at [basicConfig]
    when the log file cannot be opened, and otherwise configures the root
    logger and writes its two records. *)
Lemma setup_logging_spec w ns :
  args w = Some ns -> is_Some (ns !! "verbose") -> is_Some (ns !! "logfile") ->
  is_Some (attrs w !! "tool_name") -> is_Some (attrs w !! "tool_version") ->
  root w = None ->
  CmdlApp.setup_logging cls w =
    match log_failure w ns with
    | Some e => (Raise e, w)
    | None =>
        (Ok tt, add_record (level_note ns)
                  (add_record (banner w ns) (set_root (Some (lcfg ns)) w)))
    end.
Proof.
  intros Ha [v Hv] [lf Hlf] [tn Htn] [tv Htv] Hroot.
  assert (banner w ns = info_record (lcfg ns)
            (str tn +:+ " " +:+ str tv +:+ " starting.")) as ->.
  { unfold banner, attr. by rewrite Htn, Htv. }
  assert (level_note ns = info_record (lcfg ns)
            ("Logging system initialized to level '" +:+
             (if truthy v then "debug" else "warning") +:+ "'.")) as ->.
  { unfold level_note, option_of. by rewrite Hv. }
  pose proof (basicConfig_keywords w ns v lf Hroot Hv Hlf) as Hbasic.
  unfold keywords in Hbasic.
  unfold CmdlApp.setup_logging.
  erewrite bind_Ok by (by eapply args_attr_lookup).
  destruct (truthy v) eqn:Htruthy.
  all: erewrite bind_Ok by (by eapply args_attr_lookup).
  all: destruct (log_failure w ns) as [e|].
  all: try (erewrite bind_Raise by exact Hbasic; reflexivity).
  all: erewrite bind_Ok by exact Hbasic.
  all: erewrite bind_Ok by (by apply getattr_lookup).
  all: erewrite bind_Ok by (by apply getattr_lookup).
  all: erewrite bind_Ok by (by eapply info_emitted, lcfg_level).
  all: erewrite info_emitted; [reflexivity|reflexivity|apply lcfg_level].
Qed.

Lemma setup_logging_fresh w ns :
  args w = Some ns -> is_Some (ns !! "verbose") -> is_Some (ns !! "logfile") ->
  is_Some (attrs w !! "tool_name") -> is_Some (attrs w !! "tool_version") ->
  root w = None -> log_failure w ns = None ->
  CmdlApp.setup_logging cls w =
    (Ok tt, add_record (level_note ns)
              (add_record (banner w ns) (set_root (Some (lcfg ns)) w))).
Proof.
  intros Ha Hv Hlf Htn Htv Hroot Hopen.
  rewrite (setup_logging_spec w ns Ha Hv Hlf Htn Htv Hroot). by rewrite Hopen.
Qed.

Lemma basicConfig_Ok w :
  exists w', basicConfig Logging.default_config w = (Ok tt, w') /\ frame eq w w'.
Proof.
  pose proof (keeps_basicConfig eq false Logging.default_config w) as [Hfr _].
  rewrite basicConfig_unfold in *.
  destruct (root w); eexists; split; try reflexivity; exact Hfr.
Qed.

Lemma log_Ok lvl msg exc w :
  exists w', log lvl msg exc w = (Ok tt, w') /\ frame eq w w'.
Proof.
  pose proof (keeps_log eq false lvl msg exc w) as [Hfr _].
  unfold log in *.
  destruct (basicConfig_Ok w) as (w1 & Hb & _).
  erewrite bind_Ok in * by exact Hb.
  unfold bind, get in *. cbn in *.
  destruct (root w1) as [c|]; [|by eexists].
  destruct (Logging.level c <=? lvl)%Z; by eexists.
Qed.

Lemma load_cfgfile_spec w ns p c :
  args w = Some ns -> ns !! "cfg" = Some (VStr p) -> is_Some (ns !! "verbose") ->
  root w = Some c -> (Logging.level c <= Logging.INFO)%Z ->
  CmdlApp.load_cfgfile cls w =
    let w1 := add_record (info_record c ("Loading config file '" +:+ p +:+ "'.")) w in
    match fs w !! p with
    | Some (WellFormed doc) => (Ok tt, set_cfg (Some doc) w1)
    | other =>
        (Raise (SystemExit 1),
         add_record
           (error_record c ("Failed to load config file '" +:+ p +:+ "'.")
              (if truthy (option_of ns "verbose") then load_failure other else None))
           w1)
    end.
Proof.
  intros Ha Hp [v Hv] Hroot Hlevel.
  unfold CmdlApp.load_cfgfile.
  erewrite bind_Ok by (by eapply args_attr_lookup).
  erewrite bind_Ok by (by eapply info_emitted).
  unfold option_of. rewrite Hv. cbn [default str]. unfold id.
  set (w1 := add_record _ w).
  assert (Logging.level c <= Logging.ERROR)%Z as Herr.
  { unfold Logging.ERROR, Logging.INFO in *. lia. }
  unfold try_except.
  erewrite bind_Ok by (by eapply args_attr_lookup).
  unfold CmdlApp.open_and_load.
  destruct (fs w !! p) as [[| |doc]|] eqn:Hfile.
  all: unfold bind at 1; unfold bind at 1; unfold get at 1; cbn [fs w1 add_record].
  all: rewrite Hfile; cbn [raise ret modify].
  3: reflexivity.
  all: erewrite bind_Ok by (by eapply args_attr_lookup).
  all: erewrite bind_Ok by (by eapply args_attr_lookup).
  all: destruct (truthy v); cbn [load_failure].
  all: unfold exception, error.
  all: erewrite bind_Ok by (by eapply log_emitted); reflexivity.
Qed.
End StepFacts.

(** ** The statements of [run] before the work function *)

Local Open Scope list_scope.

Section StartupFacts.
Variable cls : CmdlApp.Class.

Lemma call_unfold {A} callee actuals (body : Py.M World A) w :
  call callee actuals body w = body (add_event (Call callee actuals) w).
Proof. reflexivity. Qed.

Lemma parse_args_parser w specs :
  parser w = Some specs ->
  CmdlApp.parse_args cls w = (Argparse.parse_args specs (argv w), w).
Proof. intros H. unfold CmdlApp.parse_args, bind, get. cbn. now rewrite H. Qed.

Lemma eq_True_truthy v : eq_True v = true -> truthy v = true.
Proof. destruct v; cbn; try done. intros ->%Z.eqb_eq. done. Qed.

Lemma attr_lookup w k v : attrs w !! k = Some v -> attr w k = v.
Proof. unfold attr. by intros ->. Qed.

Lemma startup_rejected w e :
  is_Some (attrs w !! "has_cfgfile") ->
  Argparse.parse_args (flags (attr w "has_cfgfile")) (argv w) = Raise e ->
  startup cls w =
    (Raise e,
     add_event (Call "parse_args" [])
       (set_parser (Some (flags (attr w "has_cfgfile")))
          (add_event (Call "setup_args" []) w))).
Proof.
  intros [h Hh] Hrej. rewrite (attr_lookup _ _ _ Hh) in *.
  unfold startup.
  erewrite bind_Ok by (rewrite call_unfold; by apply setup_args_flags).
  erewrite bind_Raise; [reflexivity|].
  rewrite call_unfold. erewrite parse_args_parser by reflexivity.
  cbn [argv add_event set_parser]. by rewrite Hrej.
Qed.

(** A run whose log file cannot be opened ends in [setup_logging]. *)
Lemma startup_blocked w ns e :
  constructed w -> root w = None ->
  Argparse.parse_args (flags (attr w "has_cfgfile")) (argv w) = Ok ns ->
  log_failure w ns = Some e ->
  startup cls w =
    (Raise e,
     add_event (Call "setup_logging" [])
       (set_args (Some ns)
          (add_event (Call "parse_args" [])
             (set_parser (Some (flags (attr w "has_cfgfile")))
                (add_event (Call "setup_args" []) w))))).
Proof.
  intros ([h Hh] & [r Hr] & Htn & Htv) Hroot Hns Hlog.
  destruct (parse_args_flags _ _ _ Hns) as (Hv & Hlf & _).
  rewrite (attr_lookup _ _ _ Hh) in *.
  unfold startup.
  erewrite bind_Ok by (rewrite call_unfold; by apply setup_args_flags).
  erewrite bind_Ok; cycle 1.
  { rewrite call_unfold. erewrite parse_args_parser by reflexivity.
    cbn [argv add_event set_parser]. by rewrite Hns. }
  erewrite bind_Ok by reflexivity.
  erewrite bind_Raise; [reflexivity|].
  rewrite call_unfold.
  erewrite setup_logging_spec; [|reflexivity|done|done|done|done|done].
  change (log_failure _ ns) with (log_failure w ns). by rewrite Hlog.
Qed.

Lemma startup_prepared w ns :
  constructed w -> root w = None ->
  Argparse.parse_args (flags (attr w "has_cfgfile")) (argv w) = Ok ns ->
  log_failure w ns = None ->
  startup cls w =
    (if truthy (attr w "has_cfgfile")
     then call "load_cfgfile" [] (CmdlApp.load_cfgfile cls)
     else ret tt) (prepared w ns).
Proof.
  intros ([h Hh] & [r Hr] & Htn & Htv) Hroot Hns Hopen.
  destruct (parse_args_flags _ _ _ Hns) as (Hv & Hlf & _).
  unfold prepared, banner.
  rewrite (attr_lookup _ _ _ Hh), (attr_lookup _ _ _ Hr) in *.
  unfold startup.
  erewrite bind_Ok by (rewrite call_unfold; by apply setup_args_flags).
  erewrite bind_Ok; cycle 1.
  { rewrite call_unfold. erewrite parse_args_parser by reflexivity.
    cbn [argv add_event set_parser]. by rewrite Hns. }
  erewrite bind_Ok by reflexivity.
  erewrite bind_Ok by (rewrite call_unfold; by apply setup_logging_fresh).
  erewrite bind_Ok by (by apply getattr_lookup).
  destruct (truthy r).
  - erewrite bind_Ok by reflexivity.
    erewrite bind_Ok by (by apply getattr_lookup). reflexivity.
  - erewrite bind_Ok by reflexivity.
    erewrite bind_Ok by (by apply getattr_lookup). reflexivity.
Qed.

Lemma trace_add_event e w : trace (add_event e w) = trace w ++ [e].
Proof. reflexivity. Qed.

Lemma startup_trace w :
  constructed w ->
  let steps := plan (attr w "reload_on_hup") (attr w "has_cfgfile") in
  (exists w0, startup cls w = (Ok tt, w0) /\
              trace w0 = trace w ++ removelast steps) \/
  (exists e w0 n, startup cls w = (Raise e, w0) /\
                  (2 <= n < length steps)%nat /\
                  trace w0 = trace w ++ take n steps).
Proof.
  intros ([h Hh] & [r Hr] & Htn & Htv).
  rewrite (attr_lookup _ _ _ Hh), (attr_lookup _ _ _ Hr). cbn zeta.
  unfold startup.
  erewrite bind_Ok by (rewrite call_unfold; by apply setup_args_flags).
  set (w1 := set_parser _ _).
  assert (CmdlApp.parse_args cls (add_event (Call "parse_args" []) w1) =
          (Argparse.parse_args (flags h) (argv w), add_event (Call "parse_args" []) w1))
    as Hparse by (by erewrite parse_args_parser by reflexivity).
  destruct (Argparse.parse_args (flags h) (argv w)) as [ns|e|s] eqn:Hns.
  2:{ right. exists e, (add_event (Call "parse_args" []) w1), 2%nat.
      split; [|split].
      - erewrite bind_Raise; [reflexivity|]. by rewrite call_unfold, Hparse.
      - unfold plan. cbn. rewrite !length_app. cbn. lia.
      - cbn. by rewrite <- app_assoc. }
  2:{ unfold Argparse.parse_args in Hns. by repeat case_match. }
  erewrite bind_Ok by (by rewrite call_unfold, Hparse).
  erewrite bind_Ok by reflexivity.
  pose (w3 := add_event (Call "setup_logging" [])
               (set_args (Some ns) (add_event (Call "parse_args" []) w1))).
  pose proof (keeps_setup_logging eq false cls w3) as [Hfr Hnk].
  destruct (CmdlApp.setup_logging cls w3) as [[[]|e|s] w4] eqn:Hlog;
    cbn in Hfr, Hnk; destruct Hfr as (Htr4 & Hat4 & _).
  3:{ by destruct (Hnk eq_refl s). }
  2:{ right. exists e, w4, 3%nat. split; [|split].
      - erewrite bind_Raise; [reflexivity|]. rewrite call_unfold. exact Hlog.
      - unfold plan. cbn. rewrite !length_app. cbn. lia.
      - rewrite <- Htr4. cbn. by rewrite <- !app_assoc. }
  erewrite bind_Ok by (rewrite call_unfold; exact Hlog).
  erewrite bind_Ok by (apply getattr_lookup; rewrite Hat4; exact Hr).
  assert (trace w4 = trace w ++ [Call "setup_args" []; Call "parse_args" [];
                                 Call "setup_logging" []]) as Htrace.
  { rewrite <- Htr4. cbn. by rewrite <- !app_assoc. }
  unfold plan.
  destruct (truthy r).
  - erewrite bind_Ok by reflexivity.
    erewrite bind_Ok by (apply getattr_lookup; cbn; rewrite Hat4; exact Hh).
    set (w5 := set_sighup true _).
    assert (trace w5 = trace w ++ [Call "setup_args" []; Call "parse_args" [];
              Call "setup_logging" []; Call "signal.signal" [VInt CmdlApp.SIGHUP]])
      as Htrace5 by (cbn; rewrite Htrace; by rewrite <- app_assoc).
    destruct (truthy h).
    + rewrite call_unfold.
      pose proof (keeps_load_cfgfile eq false cls
                    (add_event (Call "load_cfgfile" []) w5)) as [Hfr Hnk'].
      destruct (CmdlApp.load_cfgfile cls _) as [[[]|e|s] w6];
        cbn in Hfr, Hnk'; destruct Hfr as (Htr6 & _).
      * left. eexists. split; [reflexivity|].
        rewrite <- Htr6, trace_add_event, Htrace5, <- app_assoc. reflexivity.
      * right. exists e, w6, 5%nat. split; [reflexivity|]. split; [cbn; lia|].
        rewrite <- Htr6, trace_add_event, Htrace5, <- app_assoc. reflexivity.
      * by destruct (Hnk' eq_refl s).
    + left. eexists. split; [reflexivity|]. exact Htrace5.
  - erewrite bind_Ok by reflexivity.
    erewrite bind_Ok by (apply getattr_lookup; rewrite Hat4; exact Hh).
    destruct (truthy h).
    + rewrite call_unfold.
      pose proof (keeps_load_cfgfile eq false cls
                    (add_event (Call "load_cfgfile" []) w4)) as [Hfr Hnk'].
      destruct (CmdlApp.load_cfgfile cls _) as [[[]|e|s] w6];
        cbn in Hfr, Hnk'; destruct Hfr as (Htr6 & _).
      * left. eexists. split; [reflexivity|].
        rewrite <- Htr6, trace_add_event, Htrace, <- app_assoc. reflexivity.
      * right. exists e, w6, 4%nat. split; [reflexivity|]. split; [cbn; lia|].
        rewrite <- Htr6, trace_add_event, Htrace, <- app_assoc. reflexivity.
      * by destruct (Hnk' eq_refl s).
    + left. eexists. split; [reflexivity|]. exact Htrace.
Qed.

Lemma in_sequence_one (m : Py.M World unit) w : in_sequence [m] w = m w.
Proof. cbn. by destruct (m w) as [[[]|e|s] w']. Qed.

Lemma in_sequence_app steps more w :
  in_sequence (steps ++ more) w = (in_sequence steps;; in_sequence more) w.
Proof.
  revert w. induction steps as [|step steps IH]; intros w; [reflexivity|].
  cbn [app in_sequence]. unfold bind at 1. cbn [in_sequence].
  destruct (step w) as [[[]|e|s] w']; try reflexivity.
  rewrite IH. reflexivity.
Qed.

(** The statements of [run] before the [try] are its first steps, run in
    sequence; which ones they are is settled by the attributes the
    instance has when [run] is called. *)
Lemma startup_in_sequence w :
  constructed w ->
  startup cls w =
    in_sequence
      (removelast (stages cls (attr w "reload_on_hup") (attr w "has_cfgfile"))) w.
Proof.
  intros ([h Hh] & [r Hr] & Htn & Htv).
  rewrite (attr_lookup _ _ _ Hh), (attr_lookup _ _ _ Hr).
  assert (call "setup_args" [] (CmdlApp.setup_args cls) w =
          (Ok tt, set_parser (Some (flags h)) (add_event (Call "setup_args" []) w)))
    as Hsetup by (rewrite call_unfold; by apply setup_args_flags).
  set (w1 := set_parser _ _) in Hsetup.
  assert (removelast (stages cls r h) =
          [call "setup_args" [] (CmdlApp.setup_args cls);
           (ns <- call "parse_args" [] (CmdlApp.parse_args cls);;
            modify (set_args (Some ns)));
           call "setup_logging" [] (CmdlApp.setup_logging cls)] ++
          (if truthy r
           then [call "signal.signal" [VInt CmdlApp.SIGHUP] (modify (set_sighup true))]
           else []) ++
          (if truthy h
           then [call "load_cfgfile" [] (CmdlApp.load_cfgfile cls)]
           else [])) as ->.
  { unfold stages. by destruct (truthy r), (truthy h). }
  unfold startup. erewrite bind_Ok by exact Hsetup.
  cbn [app in_sequence]. rewrite Hsetup.
  destruct (call "parse_args" [] (CmdlApp.parse_args cls) w1) as [[ns|e|s] w2] eqn:Hparse.
  2:{ rewrite (bind_Raise _ (fun ns => modify (set_args (Some ns))) w1 e w2 Hparse).
      by erewrite bind_Raise by exact Hparse. }
  2:{ rewrite (bind_Killed _ (fun ns => modify (set_args (Some ns))) w1 s w2 Hparse).
      by erewrite bind_Killed by exact Hparse. }
  rewrite (bind_Ok _ (fun ns => modify (set_args (Some ns))) w1 ns w2 Hparse).
  erewrite bind_Ok by exact Hparse. erewrite bind_Ok by reflexivity.
  cbn [modify].
  assert (attrs w2 = attrs w) as Hat2.
  { rewrite call_unfold in Hparse.
    erewrite parse_args_parser in Hparse by reflexivity.
    injection Hparse as _ <-. reflexivity. }
  pose proof (grows_call false "setup_logging" [] _
                (keeps_setup_logging prefix false cls) (set_args (Some ns) w2))
    as [(_ & Hat3 & _) _].
  destruct (call "setup_logging" [] (CmdlApp.setup_logging cls) (set_args (Some ns) w2))
    as [[[]|e|s] w3] eqn:Hlog; cbn in Hat3.
  2: by erewrite bind_Raise by exact Hlog.
  2: by erewrite bind_Killed by exact Hlog.
  assert (attrs w3 = attrs w) as Hat by congruence.
  erewrite bind_Ok by exact Hlog.
  erewrite bind_Ok by (apply getattr_lookup; rewrite Hat; exact Hr).
  destruct (truthy r).
  - erewrite bind_Ok by reflexivity.
    erewrite bind_Ok by (apply getattr_lookup; cbn; rewrite Hat; exact Hh).
    cbn [app in_sequence call bind modify].
    destruct (truthy h); [|reflexivity].
    rewrite in_sequence_one. reflexivity.
  - erewrite bind_Ok by reflexivity.
    erewrite bind_Ok by (apply getattr_lookup; rewrite Hat; exact Hh).
    cbn [app].
    destruct (truthy h); [|reflexivity].
    rewrite in_sequence_one. reflexivity.
Qed.
End StartupFacts.

(** ** The order of the calls *)

Section RunFacts.
Variable cls : CmdlApp.Class.

Lemma prepared_fields w ns :
  attrs (prepared w ns) = attrs w /\ args (prepared w ns) = Some ns /\
  root (prepared w ns) = Some (lcfg ns) /\ fs (prepared w ns) = fs w /\
  records (prepared w ns) = records w ++ [banner w ns; level_note ns] /\
  trace (prepared w ns) =
    trace w ++ [Call "setup_args" []; Call "parse_args" []; Call "setup_logging" []] ++
    (if truthy (attr w "reload_on_hup")
     then [Call "signal.signal" [VInt CmdlApp.SIGHUP]] else []).
Proof.
  unfold prepared. destruct (truthy (attr w "reload_on_hup")); cbn;
    rewrite <- !app_assoc; split_and!; reflexivity.
Qed.

Lemma work_phase_unfold w :
  work_phase cls w =
    try_except (CmdlApp.self_main_fct cls) guard (add_event (Call "main_fct" []) w).
Proof. reflexivity. Qed.

Lemma keeps_guard R `{!PreOrder R} mortal e : keeps R mortal (guard e).
Proof. destruct e; apply keeps_log; apply _. Qed.

Lemma work_phase_trace w :
  exists tail, trace (work_phase cls w).2 = trace w ++ [Call "main_fct" []] ++ tail.
Proof.
  rewrite work_phase_unfold.
  destruct (keeps_try_except prefix true (CmdlApp.self_main_fct cls) guard
              (evolves_self_main_fct cls) (fun e => keeps_guard prefix true e)
              (add_event (Call "main_fct" []) w)) as [([tail Htail] & _) _].
  exists tail. rewrite Htail. cbn. by rewrite <- app_assoc.
Qed.

Lemma stages_last r h :
  stages cls r h = removelast (stages cls r h) ++ [work_phase cls].
Proof. unfold stages. by destruct (truthy r), (truthy h). Qed.

Lemma plan_last r h : plan r h = removelast (plan r h) ++ [Call "main_fct" []].
Proof. unfold plan. by destruct (truthy r), (truthy h). Qed.

Lemma plan_length r h : (4 <= length (plan r h))%nat.
Proof. unfold plan. destruct (truthy r), (truthy h); cbn; lia. Qed.
End RunFacts.

(** C1.  On a constructed instance [run] is its steps executed in
    sequence: [setup_args], then [parse_args] with the assignment of
    [self.args], then [setup_logging], then the registration of the
    handler for SIGHUP if and only if [reload_on_hup] is true, then
    [load_cfgfile] if and only if [has_cfgfile] is true, then the [try]
    statement that calls [main_fct] without arguments.  Each step starts in
    the world the previous one left and only if that one returned: when
    the first [k] steps end with an exception, [run] ends with that
    exception in that world, and no later step has run.  The calls noted on
    the way are the first [n] entries of the list of the steps' calls,
    followed by whatever the work function brings about; both parsing
    steps are always reached, and [run] stops short of the full list only
    when the last step it reached raised. *)
Theorem run_steps_in_order (cls : CmdlApp.Class) (w : World) :
  constructed w ->
  let todo := stages cls (attr w "reload_on_hup") (attr w "has_cfgfile") in
  let steps := plan (attr w "reload_on_hup") (attr w "has_cfgfile") in
  CmdlApp.run cls w = in_sequence todo w /\
  (forall k e w', in_sequence (take k todo) w = (Raise e, w') ->
                  CmdlApp.run cls w = (Raise e, w')) /\
  exists n tail,
    trace (CmdlApp.run cls w).2 = trace w ++ take n steps ++ tail /\
    (2 <= n <= length steps)%nat /\
    (n = length steps \/
     tail = [] /\ exists e, (CmdlApp.run cls w).1 = Raise e).
Proof.
  intros Hc todo steps.
  assert (CmdlApp.run cls w = in_sequence todo w) as Hrun.
  { transitivity ((in_sequence (removelast todo);; in_sequence [work_phase cls]) w).
    - rewrite run_phases. unfold bind.
      rewrite (startup_in_sequence cls w Hc). fold todo.
      destruct (in_sequence (removelast todo) w) as [[[]|e|s] w0]; try reflexivity.
      by rewrite in_sequence_one.
    - rewrite <- in_sequence_app. unfold todo. by rewrite <- stages_last. }
  split; [exact Hrun|]. split.
  { intros k e w' Hk. rewrite Hrun, <- (take_drop k todo), in_sequence_app.
    by erewrite bind_Raise by exact Hk. }
  rewrite run_phases.
  destruct (startup_trace cls w Hc) as [(w0 & Hs & Htr)|(e & w0 & n & Hs & Hn & Htr)];
    fold steps in Htr.
  - erewrite bind_Ok by exact Hs.
    destruct (work_phase_trace cls w0) as [tail Htail].
    exists (length steps), tail. split; [|split; [|by left]].
    + rewrite Htail, Htr, firstn_all. unfold steps at 2.
      rewrite plan_last. by rewrite <- !app_assoc.
    + pose proof (plan_length (attr w "reload_on_hup") (attr w "has_cfgfile")).
      fold steps in H. lia.
  - erewrite bind_Raise by exact Hs. fold steps in Hn.
    exists n, []. split; [|split].
    + cbn. by rewrite Htr, app_nil_r.
    + lia.
    + right. split; [done|by exists e].
Qed.

Lemma run_steps_in_order_witness :
  let w := launched CmdlApp.CmdlApp
             [[("has_cfgfile", VBool true); ("reload_on_hup", VBool true)]]
             ["--cfg"; "missing.yaml"] sample_disk in
  let todo := stages CmdlApp.CmdlApp (VBool true) (VBool true) in
  CmdlApp.run CmdlApp.CmdlApp w = in_sequence todo w /\
  (in_sequence (take 4 todo) w).1 = Ok tt /\
  (in_sequence (take 5 todo) w).1 = Raise (SystemExit 1) /\
  (CmdlApp.run CmdlApp.CmdlApp w).1 = Raise (SystemExit 1) /\
  exists n tail,
    trace (CmdlApp.run CmdlApp.CmdlApp w).2 =
      trace w ++ take n (plan (VBool true) (VBool true)) ++ tail /\
    (2 <= n <= 6)%nat /\
    (n = 6%nat \/ tail = [] /\ exists e, (CmdlApp.run CmdlApp.CmdlApp w).1 = Raise e).
Proof.
  intros w.
  assert (constructed w) as Hc
    by (unfold constructed; split_and!; eexists; vm_compute; reflexivity).
  intros todo.
  pose proof (run_steps_in_order CmdlApp.CmdlApp w Hc) as (Hrun & Hstop & Htrace).
  assert ((in_sequence (take 5 todo) w).1 = Raise (SystemExit 1)) as Hfive
    by (vm_compute; reflexivity).
  split; [exact Hrun|]. split; [vm_compute; reflexivity|]. split; [exact Hfive|].
  split; [|exact Htrace].
  destruct (in_sequence (take 5 todo) w) as [res w'] eqn:Hseq. cbn in Hfive. subst res.
  by rewrite (Hstop 5%nat _ _ Hseq).
Defined.

(** ** The initial load of the configuration file *)

Section LoadFacts.
Variable cls : CmdlApp.Class.

Lemma option_of_lookup ns k v : ns !! k = Some v -> option_of ns k = v.
Proof. unfold option_of. by intros ->. Qed.

(** A load that fails, whatever the value of [--cfg]. *)
Lemma load_cfgfile_fails w ns path c e :
  args w = Some ns -> ns !! "cfg" = Some path -> is_Some (ns !! "verbose") ->
  root w = Some c -> (Logging.level c <= Logging.INFO)%Z ->
  cfg_failure w path = Some e ->
  CmdlApp.load_cfgfile cls w =
    (Raise (SystemExit 1),
     add_record
       (error_record c ("Failed to load config file '" +:+ str path +:+ "'.")
          (if truthy (option_of ns "verbose") then Some e else None))
       (add_record (info_record c ("Loading config file '" +:+ str path +:+ "'.")) w)).
Proof.
  intros Ha Hp Hv Hroot Hlevel Hfail.
  assert ((exists p, path = VStr p) \/ (forall p, path <> VStr p)) as [[p ->]|Hother]
    by (destruct path; eauto; by right).
  { rewrite (load_cfgfile_spec cls w ns p c Ha Hp Hv Hroot Hlevel).
    cbn in Hfail. destruct (fs w !! p) as [[| |doc]|]; cbn in Hfail; try done.
    all: by injection Hfail as <-. }
  assert (cfg_failure w path = Some (TypeError "expected str, bytes or os.PathLike object")
          /\ CmdlApp.open_and_load path =
             raise (TypeError "expected str, bytes or os.PathLike object")) as [Hwhy Hopen].
  { destruct path as [| | |p| |]; try done. by destruct (Hother p). }
  rewrite Hwhy in Hfail. injection Hfail as <-.
  destruct Hv as [v Hv].
  unfold CmdlApp.load_cfgfile.
  erewrite bind_Ok by (by eapply args_attr_lookup).
  erewrite bind_Ok by (by eapply info_emitted).
  unfold option_of. rewrite Hv. cbn [default]. unfold id.
  assert (Logging.level c <= Logging.ERROR)%Z as Herr.
  { unfold Logging.ERROR, Logging.INFO in *. lia. }
  unfold try_except.
  erewrite bind_Ok by (by eapply args_attr_lookup).
  rewrite Hopen. unfold bind at 1. cbn [raise].
  erewrite bind_Ok by (by eapply args_attr_lookup).
  erewrite bind_Ok by (by eapply args_attr_lookup).
  destruct (truthy v); unfold exception, error.
  all: erewrite bind_Ok by (by eapply log_emitted); reflexivity.
Qed.

(** The initial load of a run whose parser demands [--cfg]. *)
Lemma startup_loads w ns :
  constructed w -> root w = None ->
  eq_True (attr w "has_cfgfile") = true ->
  Argparse.parse_args (flags (attr w "has_cfgfile")) (argv w) = Ok ns ->
  log_failure w ns = None ->
  exists path, ns !! "cfg" = Some path /\ path <> VNone /\
    startup cls w =
      CmdlApp.load_cfgfile cls (add_event (Call "load_cfgfile" []) (prepared w ns)).
Proof.
  intros Hc Hroot Hh Hns Hopen.
  destruct (parse_args_flags _ _ _ Hns) as (Hv & _ & Hcfg).
  rewrite Hh in Hcfg. destruct Hcfg as (path & Hp & Hnot). exists path.
  split; [done|]. split; [done|].
  rewrite (startup_prepared cls w ns Hc Hroot Hns Hopen).
  by rewrite (eq_True_truthy _ Hh), call_unfold.
Qed.
End LoadFacts.

(** C6.  Take a constructed instance whose [has_cfgfile] is true, in a
    process that has not touched the root logger, with a command line
    the parser accepts and a log file, if one is asked for, that can be
    opened and is not the configuration file.  The namespace then holds
    the value given with [--cfg], and the records of the run are the two
    of [setup_logging], then the info record of the loader naming that
    value, then the rest.  If the file is missing, unreadable or
    malformed, the rest is one record of level ERROR that carries the
    exception when [--verbose] was given and nothing but the short message
    otherwise; [run] ends with [SystemExit(1)], the process exits with
    status 1, and the calls of the run stop at [load_cfgfile]: [main_fct]
    is not among them. *)
Theorem load_failure_exits_before_work
    (cls : CmdlApp.Class) (w : World) (ns : gmap string value) :
  constructed w -> root w = None ->
  eq_True (attr w "has_cfgfile") = true ->
  Argparse.parse_args (flags (attr w "has_cfgfile")) (argv w) = Ok ns ->
  log_failure w ns = None -> log_apart ns ->
  exists path rest,
    ns !! "cfg" = Some path /\ path <> VNone /\
    records (CmdlApp.run cls w).2 =
      records w ++
      [banner w ns; level_note ns;
       info_record (lcfg ns) ("Loading config file '" +:+ str path +:+ "'.")] ++ rest /\
    forall e, cfg_failure w path = Some e ->
      rest = [error_record (lcfg ns) ("Failed to load config file '" +:+ str path +:+ "'.")
                (if truthy (option_of ns "verbose") then Some e else None)] /\
      (CmdlApp.run cls w).1 = Raise (SystemExit 1) /\
      exit_status (CmdlApp.run cls w).1 = Exit 1 /\
      exists steps, trace (CmdlApp.run cls w).2 = trace w ++ steps /\
                    Call "main_fct" [] ∉ steps.
Proof.
  intros Hc Hroot Hh Hns Hopen _.
  destruct (startup_loads cls w ns Hc Hroot Hh Hns Hopen) as (path & Hp & Hnot & Hs).
  destruct (parse_args_flags _ _ _ Hns) as (Hv & _ & _).
  exists path. rewrite run_phases.
  destruct (prepared_fields w ns) as (_ & Hargs & Hr & Hfs & Hrec & Htr).
  set (w0 := add_event (Call "load_cfgfile" []) (prepared w ns)) in *.
  destruct (cfg_failure w path) as [e|] eqn:Hfail.
  - assert (cfg_failure w0 path = Some e) as Hfail0.
    { unfold cfg_failure in *. cbn [fs w0 add_event]. by rewrite Hfs. }
    rewrite (load_cfgfile_fails cls w0 ns path (lcfg ns) e) in Hs;
      [|by cbn|done|done|by cbn|apply lcfg_level|done].
    erewrite bind_Raise by exact Hs.
    eexists; split; [done|]; split; [done|]; split;
      [cbn [snd records add_record add_event w0]; rewrite Hrec, <- !app_assoc;
       reflexivity|].
    intros e' [= <-].
    split; [reflexivity|]; split; [reflexivity|]; split; [reflexivity|].
    eexists; split;
      [cbn [snd trace add_record add_event w0]; rewrite Htr, <- !app_assoc; reflexivity|].
    destruct (truthy (attr w "reload_on_hup")); cbn; set_solver.
  - assert (exists p doc, path = VStr p /\ fs w0 !! p = Some (WellFormed doc))
      as (p & doc & -> & Hfile).
    { unfold cfg_failure in Hfail. destruct path; try done.
      exists s. cbn [fs w0 add_event]. rewrite Hfs.
      destruct (fs w !! s) as [[| |doc]|]; try done. by exists doc. }
    rewrite (load_cfgfile_spec cls w0 ns p (lcfg ns)) in Hs;
      [|by cbn|done|done|by cbn|apply lcfg_level].
    rewrite Hfile in Hs. cbn zeta in Hs.
    erewrite bind_Ok by exact Hs.
    destruct (evolves_work_phase cls (set_cfg (Some doc)
                (add_record (info_record (lcfg ns) ("Loading config file '" +:+ p +:+ "'."))
                   w0)))
      as [(_ & _ & _ & _ & _ & _ & _ & [rest Hrest]) _].
    exists rest. split; [done|]. split; [done|]. split; [|done].
    rewrite Hrest. cbn [records set_cfg add_record add_event w0 str]. rewrite Hrec.
    by rewrite <- !app_assoc.
Qed.

Lemma load_failure_exits_before_work_witness :
  let w := launched CmdlApp.CmdlApp [[("has_cfgfile", VBool true)]]
             ["--cfg"; "missing.yaml"; "-v"; "-l"; "tool.log"] sample_disk in
  (CmdlApp.run CmdlApp.CmdlApp w).1 = Raise (SystemExit 1) /\
  exit_status (CmdlApp.run CmdlApp.CmdlApp w).1 = Exit 1 /\
  exists steps, trace (CmdlApp.run CmdlApp.CmdlApp w).2 = trace w ++ steps /\
                Call "main_fct" [] ∉ steps.
Proof.
  intros w.
  assert (constructed w) as Hc
    by (unfold constructed; split_and!; eexists; vm_compute; reflexivity).
  assert (root w = None) as Hroot by (vm_compute; reflexivity).
  assert (eq_True (attr w "has_cfgfile") = true) as Hh by (vm_compute; reflexivity).
  assert (match Argparse.parse_args (flags (attr w "has_cfgfile")) (argv w) with
          | Ok parsed_ns => parsed_ns !! "cfg"
          | _ => None
          end = Some (VStr "missing.yaml")) as Hcfg by (vm_compute; reflexivity).
  assert (match Argparse.parse_args (flags (attr w "has_cfgfile")) (argv w) with
          | Ok parsed_ns => log_failure w parsed_ns
          | _ => None
          end = None) as Hopen by (vm_compute; reflexivity).
  assert (match Argparse.parse_args (flags (attr w "has_cfgfile")) (argv w) with
          | Ok parsed_ns => log_apart parsed_ns
          | _ => True
          end) as Hapart by (vm_compute; discriminate).
  destruct (Argparse.parse_args (flags (attr w "has_cfgfile")) (argv w))
    as [ns| |] eqn:Hns; [|discriminate..].
  destruct (load_failure_exits_before_work CmdlApp.CmdlApp w ns Hc Hroot Hh Hns Hopen Hapart)
    as (path & rest & Hp & _ & _ & Hfail).
  rewrite Hp in Hcfg. injection Hcfg as ->.
  assert (cfg_failure w (VStr "missing.yaml") = Some (OSError "No such file or directory"))
    as Hmissing by (vm_compute; reflexivity).
  destruct (Hfail _ Hmissing) as (_ & Hrun & Hexit & Hsteps).
  exact (conj Hrun (conj Hexit Hsteps)).
Defined.

(** ** The work function *)

Section WorkPhaseFacts.
Variable cls : CmdlApp.Class.

Lemma startup_ready w w0 :
  constructed w -> root w = None -> startup cls w = (Ok tt, w0) ->
  exists ns, root w0 = Some (lcfg ns) /\ attrs w0 = attrs w.
Proof.
  intros Hc Hroot Hs.
  destruct (parse_args_outcome (flags (attr w "has_cfgfile")) (argv w))
    as [[ns Hns]|[code Hrej]].
  2:{ rewrite (startup_rejected cls w _ (proj1 Hc) Hrej) in Hs. discriminate. }
  destruct (log_failure w ns) as [e|] eqn:Hlog.
  { rewrite (startup_blocked cls w ns e Hc Hroot Hns Hlog) in Hs. discriminate. }
  exists ns. rewrite (startup_prepared cls w ns Hc Hroot Hns Hlog) in Hs.
  destruct (prepared_fields w ns) as (Hattrs & _ & Hr & _).
  destruct (truthy (attr w "has_cfgfile")).
  - rewrite call_unfold in Hs.
    destruct (keeps_load_cfgfile eq false cls
                (add_event (Call "load_cfgfile" []) (prepared w ns)))
      as [(_ & Ha & _ & _ & _ & _ & Hroot' & _) _].
    rewrite Hs in *. cbn in *. split; [by apply Hroot'|congruence].
  - injection Hs as <-. done.
Qed.

Lemma guard_emitted c e w :
  root w = Some c -> (Logging.level c <= Logging.INFO)%Z ->
  guard e w = (Ok tt, add_record (guard_record c e) w).
Proof.
  intros Hr Hl. unfold guard, guard_record, exception.
  destruct e; try (by apply info_emitted).
  all: apply log_emitted; [done|unfold Logging.ERROR, Logging.INFO in *; lia].
Qed.
End WorkPhaseFacts.

(** C7.  Take a constructed instance in a process that has not touched
    the root logger, let the statements of [run] before the work function
    complete, and let the call of the work function raise [e].  Then [run]
    itself returns normally and the process exits with status 0.  What is
    left behind is one more record: for a keyboard interrupt the info
    message of the graceful termination, for every other exception a
    record of level ERROR that carries the exception. *)
Theorem work_function_failure_contained
    (cls : CmdlApp.Class) (w w0 w1 : World) (e : exn) :
  constructed w -> root w = None ->
  startup cls w = (Ok tt, w0) ->
  call "main_fct" [] (CmdlApp.self_main_fct cls) w0 = (Raise e, w1) ->
  exists c,
    root w1 = Some c /\
    CmdlApp.run cls w = (Ok tt, add_record (guard_record c e) w1) /\
    exit_status (CmdlApp.run cls w).1 = Exit 0 /\
    (e = KeyboardInterrupt ->
     guard_record c e = info_record c "Terminating due to Ctrl-C. Good bye.") /\
    (e <> KeyboardInterrupt ->
     guard_record c e = error_record c "Main function failed." (Some e)).
Proof.
  intros Hc Hroot Hs Hmain.
  destruct (startup_ready cls w w0 Hc Hroot Hs) as (ns & Hr0 & _).
  assert (root w1 = Some (lcfg ns)) as Hr1.
  { destruct (grows_call true "main_fct" [] _ (evolves_self_main_fct cls) w0)
      as [(_ & _ & _ & _ & _ & _ & Hkeep & _) _].
    rewrite Hmain in Hkeep. by apply Hkeep. }
  exists (lcfg ns). split; [done|].
  assert (CmdlApp.run cls w = (Ok tt, add_record (guard_record (lcfg ns) e) w1)) as ->.
  { rewrite run_phases. erewrite bind_Ok by exact Hs.
    unfold work_phase, try_except. rewrite Hmain.
    apply guard_emitted; [done|apply lcfg_level]. }
  split; [done|]. split; [done|].
  split; [by intros ->|]. by destruct e.
Qed.

Lemma work_function_failure_contained_witness :
  let cls := Example.Example (WRaise (UserError "out of luck")) in
  let w := launched cls [] [] sample_disk in
  let w0 := (startup cls w).2 in
  let w1 := (call "main_fct" [] (CmdlApp.self_main_fct cls) w0).2 in
  exists c,
    root w1 = Some c /\
    CmdlApp.run cls w =
      (Ok tt, add_record (guard_record c (UserError "out of luck")) w1) /\
    exit_status (CmdlApp.run cls w).1 = Exit 0 /\
    (UserError "out of luck" = KeyboardInterrupt ->
     guard_record c (UserError "out of luck") =
       info_record c "Terminating due to Ctrl-C. Good bye.") /\
    (UserError "out of luck" <> KeyboardInterrupt ->
     guard_record c (UserError "out of luck") =
       error_record c "Main function failed." (Some (UserError "out of luck"))).
Proof.
  intros cls w w0 w1.
  apply (work_function_failure_contained cls w w0 w1 (UserError "out of luck")).
  - unfold constructed. split_and!; eexists; vm_compute; reflexivity.
  - vm_compute; reflexivity.
  - vm_compute; reflexivity.
  - vm_compute; reflexivity.
Defined.

(** C10.  [CmdlApp.main_fct] exists and does one thing: it logs an info
    message.  On a constructed instance whose class defines no [main_fct]
    and on which [configure] has set none, once the statements of [run]
    before the work function are through, the call [self.main_fct()] is
    that method; [run] returns normally, and all it adds is the call and
    the record of the default implementation. *)
Theorem default_main_fct_runs (cls : CmdlApp.Class) (w w0 : World) :
  constructed w -> root w = None ->
  CmdlApp.cls_main_fct cls = None -> attrs w !! "main_fct" = None ->
  startup cls w = (Ok tt, w0) ->
  exists c,
    root w0 = Some c /\
    CmdlApp.self_main_fct cls (add_event (Call "main_fct" []) w0) =
      CmdlApp.main_fct (add_event (Call "main_fct" []) w0) /\
    CmdlApp.run cls w =
      (Ok tt,
       add_record (info_record c "Called the default main function implementation.")
         (add_event (Call "main_fct" []) w0)) /\
    exit_status (CmdlApp.run cls w).1 = Exit 0.
Proof.
  intros Hc Hroot Hcls Hattr Hs.
  destruct (startup_ready cls w w0 Hc Hroot Hs) as (ns & Hr0 & Hattrs).
  exists (lcfg ns). split; [done|].
  assert (forall w', attrs w' = attrs w ->
            CmdlApp.self_main_fct cls w' = CmdlApp.main_fct w') as Hself.
  { intros w' Hw'. unfold CmdlApp.self_main_fct, bind, get. cbn.
    by rewrite Hw', Hattr, Hcls. }
  split; [by apply Hself|].
  assert (CmdlApp.run cls w =
            (Ok tt,
             add_record
               (info_record (lcfg ns) "Called the default main function implementation.")
               (add_event (Call "main_fct" []) w0))) as ->; [|done].
  rewrite run_phases. erewrite bind_Ok by exact Hs.
  rewrite work_phase_unfold. unfold try_except.
  rewrite Hself by done. unfold CmdlApp.main_fct.
  erewrite info_emitted; [reflexivity|exact Hr0|apply lcfg_level].
Qed.

Lemma default_main_fct_runs_witness :
  let w := launched CmdlApp.CmdlApp [[("tool_name", VStr "probe")]] ["-v"] sample_disk in
  let w0 := (startup CmdlApp.CmdlApp w).2 in
  exists c,
    root w0 = Some c /\
    CmdlApp.self_main_fct CmdlApp.CmdlApp (add_event (Call "main_fct" []) w0) =
      CmdlApp.main_fct (add_event (Call "main_fct" []) w0) /\
    CmdlApp.run CmdlApp.CmdlApp w =
      (Ok tt,
       add_record (info_record c "Called the default main function implementation.")
         (add_event (Call "main_fct" []) w0)) /\
    exit_status (CmdlApp.run CmdlApp.CmdlApp w).1 = Exit 0.
Proof.
  intros w w0.
  apply (default_main_fct_runs CmdlApp.CmdlApp w w0).
  - unfold constructed. split_and!; eexists; vm_compute; reflexivity.
  - vm_compute; reflexivity.
  - reflexivity.
  - vm_compute; reflexivity.
  - vm_compute; reflexivity.
Defined.

(** ** The hang-up signal *)

Section ReloadFacts.
Variable cls : CmdlApp.Class.

Lemma on_reload_disabled w r :
  attrs w !! "reload_on_hup" = Some r -> truthy r = false ->
  CmdlApp.on_reload cls w = (Ok tt, w).
Proof.
  intros Hr Ht. unfold CmdlApp.on_reload.
  erewrite bind_Ok by (by apply getattr_lookup). by rewrite Ht.
Qed.

Lemma on_reload_enabled w r c :
  attrs w !! "reload_on_hup" = Some r -> truthy r = true ->
  root w = Some c -> (Logging.level c <= Logging.INFO)%Z ->
  CmdlApp.on_reload cls w = CmdlApp.load_cfgfile cls (reloading c w).
Proof.
  intros Hr Ht Hroot Hl. unfold CmdlApp.on_reload.
  erewrite bind_Ok by (by apply getattr_lookup). rewrite Ht.
  erewrite bind_Ok by (by apply info_emitted). reflexivity.
Qed.


Lemma sighup_handler_dispatches stack w r :
  attrs w !! "reload_on_hup" = Some r -> truthy r = true ->
  CmdlApp.sighup_handler cls CmdlApp.SIGHUP stack w =
    CmdlApp.self_on_reload cls (add_event (Call "on_reload" []) w).
Proof.
  intros Hr Ht. unfold CmdlApp.sighup_handler. cbn [Z.eqb CmdlApp.SIGHUP Pos.eqb].
  erewrite bind_Ok by (by apply getattr_lookup). by rewrite Ht.
Qed.
End ReloadFacts.



(** C4, as the code has it.  When the signal is SIGHUP and [reload_on_hup]
    is true, all the handler does is call [self.on_reload()]: the method
    of the subclass where there is one, the inherited one otherwise.  The
    inherited [on_reload] is the reload itself: with [reload_on_hup] true
    it writes the info record and calls [load_cfgfile], and it leaves the
    world alone only when [reload_on_hup] is false. *)
Theorem on_reload_is_the_reload
    (cls : CmdlApp.Class) (stack : value) (w : World) (r : value) :
  attrs w !! "reload_on_hup" = Some r ->
  (truthy r = true ->
   CmdlApp.sighup_handler cls CmdlApp.SIGHUP stack w =
     CmdlApp.self_on_reload cls (add_event (Call "on_reload" []) w)) /\
  (forall body, CmdlApp.cls_on_reload cls = Some body ->
     CmdlApp.self_on_reload cls = CmdlApp.perform_hook cls body) /\
  (CmdlApp.cls_on_reload cls = None ->
     CmdlApp.self_on_reload cls = CmdlApp.on_reload cls) /\
  (truthy r = true ->
   forall c, root w = Some c -> (Logging.level c <= Logging.INFO)%Z ->
     CmdlApp.on_reload cls w = CmdlApp.load_cfgfile cls (reloading c w)) /\
  (truthy r = false -> CmdlApp.on_reload cls w = (Ok tt, w)).
Proof.
  intros Hr. split_and!.
  - intros Ht. by apply (sighup_handler_dispatches cls stack w r).
  - intros body Hb. unfold CmdlApp.self_on_reload. by rewrite Hb.
  - intros Hb. unfold CmdlApp.self_on_reload. by rewrite Hb.
  - intros Ht c Hroot Hl. by apply (on_reload_enabled cls w r c).
  - intros Ht. by apply (on_reload_disabled cls w r).
Qed.

Lemma on_reload_is_the_reload_witness :
  let cls := Example.Example WReturn in
  let w := (startup cls
              (launched cls [[("has_cfgfile", VBool true); ("reload_on_hup", VBool true)]]
                 ["-c"; "app.yaml"] sample_disk)).2 in
  CmdlApp.sighup_handler cls CmdlApp.SIGHUP VNone w =
    CmdlApp.self_on_reload cls (add_event (Call "on_reload" []) w) /\
  CmdlApp.self_on_reload cls = CmdlApp.on_reload cls /\
  exists c, CmdlApp.on_reload cls w = CmdlApp.load_cfgfile cls (reloading c w).
Proof.
  intros cls w.
  assert (attrs w !! "reload_on_hup" = Some (VBool true)) as Hr
    by (vm_compute; reflexivity).
  pose proof (on_reload_is_the_reload cls VNone w (VBool true) Hr)
    as (Hcall & _ & Hinherit & Hreload & _).
  assert (exists c, root w = Some c /\ (Logging.level c <= Logging.INFO)%Z)
    as (c & Hroot & Hlevel)
    by (eexists; split; [vm_compute; reflexivity|vm_compute; discriminate]).
  split; [exact (Hcall eq_refl)|]. split; [exact (Hinherit eq_refl)|].
  exists c. exact (Hreload eq_refl c Hroot Hlevel).
Defined.

(** C4, as the specification words it: the inherited [on_reload] would
    leave every world as it is.  It does not: in the world a tool with a
    configuration file and reloading enabled has reached when its work
    function starts, the inherited [on_reload] writes records and loads
    the file. *)
Lemma on_reload_default_is_not_a_noop :
  ~ (forall w : World, CmdlApp.on_reload CmdlApp.CmdlApp w = (Ok tt, w)).
Proof.
  intros Hnoop.
  specialize (Hnoop (startup CmdlApp.CmdlApp
                       (launched CmdlApp.CmdlApp
                          [[("has_cfgfile", VBool true); ("reload_on_hup", VBool true)]]
                          ["-c"; "app.yaml"] sample_disk)).2).
  apply (f_equal (fun x => length (records x.2))) in Hnoop.
  vm_compute in Hnoop. discriminate.
Qed.

(** ** The command-line options, and two runs *)




(** C3.  The tool has a configuration file and reloads on SIGHUP.  It
    starts with a well-formed file; while the work function runs the file
    is removed and the signal arrives.  [load_cfgfile] logs the failure
    and raises [SystemExit(1)] inside the handler, the exception surfaces
    in the work function, and the bare [except] of [run] catches it: the
    last record is the one about the failed main function, [run] returns
    normally and the process exits with status 0. *)
Theorem reload_failure_does_not_exit :
  let cls := Example.Example (WFile "app.yaml" None (WSighup WReturn)) in
  let outcome :=
    tool cls [[("has_cfgfile", VBool true); ("reload_on_hup", VBool true)]]
      (boot ["--cfg"; "app.yaml"] sample_disk) in
  outcome.1 = Ok tt /\
  exit_status outcome.1 = Exit 0 /\
  (Logging.message <$> records outcome.2) =
    ["Example 0.0-dev starting.";
     "Logging system initialized to level 'warning'.";
     "Loading config file 'app.yaml'.";
     "Reloading configuration due to SIGHUP signal.";
     "Loading config file 'app.yaml'.";
     "Failed to load config file 'app.yaml'.";
     "Main function failed."] /\
  (Logging.exc_info <$> last (records outcome.2)) = Some (Some (SystemExit 1)).
Proof. vm_compute. split_and!; reflexivity. Qed.

(** C5.  The tool is started without [--verbose].  [setup_logging]
    configures the root logger with level INFO, and the record about the
    level says 'warning', the name of another level. *)
Theorem level_note_names_another_level :
  let outcome := tool CmdlApp.CmdlApp [] (boot [] sample_disk) in
  (Logging.level <$> root outcome.2) = Some Logging.INFO /\
  (Logging.message <$> records outcome.2 !! 1%nat) =
    Some "Logging system initialized to level 'warning'." /\
  Logging.level_of_name "warning" = Some Logging.WARNING /\
  Logging.WARNING <> Logging.INFO.
Proof. vm_compute. split_and!; try reflexivity. discriminate. Qed.

(** ** From the start of the process to [run] *)

Section LaunchFacts.
Implicit Types (w : World) (kwargs : list (string * value)).

(** [configure] only ever adds to the instance dictionary and touches
    nothing else, whether it returns or raises. *)
Lemma configure_grows kwargs w :
  let w' := (CmdlApp.configure kwargs w).2 in
  (forall k, is_Some (attrs w !! k) -> is_Some (attrs w' !! k)) /\
  root w' = root w /\ argv w' = argv w /\ fs w' = fs w /\ trace w' = trace w.
Proof.
  revert w. induction kwargs as [|[k v] rest IH]; intros w; cbn.
  - done.
  - case_bool_decide; [|done].
    erewrite bind_Ok by reflexivity.
    destruct (IH (set_attrs (fun d => <[k:=v]> d) w)) as (Hattrs & Hroot & Hargv & Hfs & Htr).
    split; [|done]. intros k' Hk'. apply Hattrs. cbn.
    apply lookup_insert_is_Some. destruct (decide (k = k')); auto.
Qed.

Lemma configure_all_grows calls w :
  let w' := (configure_all calls w).2 in
  (forall k, is_Some (attrs w !! k) -> is_Some (attrs w' !! k)) /\
  root w' = root w /\ argv w' = argv w /\ fs w' = fs w /\ trace w' = trace w.
Proof.
  revert w. induction calls as [|kwargs more IH]; intros w; cbn; [done|].
  pose proof (configure_grows kwargs w) as Hc. cbn in Hc. unfold bind.
  destruct (CmdlApp.configure kwargs w) as [[[]|e|s] w1]; cbn in *; try done.
  destruct Hc as (Ha & Hr & Hv & Hf & Ht).
  destruct (IH w1) as (Ha' & Hr' & Hv' & Hf' & Ht').
  split_and!; try congruence. auto.
Qed.

(** X15.  Every tool reaches [run] with a constructed instance: after
    [__init__] and any sequence of [configure] calls, also one cut short
    by an unrecognized key, the four attributes with defaults exist, and
    nothing before [run] has touched the root logger, the command line,
    the files or the calls noted. *)
Lemma launched_constructed cls calls command_line disk :
  let w := launched cls calls command_line disk in
  constructed w /\ root w = None /\ argv w = command_line /\ fs w = disk /\ trace w = [].
Proof.
  unfold launched, CmdlApp.__init__.
  assert (Forall (fun k => k ∈ CmdlApp.cfg_keys)
            [("has_cfgfile", VBool false); ("reload_on_hup", VBool false);
             ("tool_name", VStr (CmdlApp.cls_name cls));
             ("tool_version", VStr "0.0-dev")].*1) as Hrec
    by (cbn; repeat constructor).
  rewrite (bind_Ok _ _ _ _ _ (configure_recognized _ (boot command_line disk) Hrec)).
  destruct (configure_all_grows calls
              (set_attrs (assigned [("has_cfgfile", VBool false);
                                    ("reload_on_hup", VBool false);
                                    ("tool_name", VStr (CmdlApp.cls_name cls));
                                    ("tool_version", VStr "0.0-dev")])
                 (boot command_line disk)))
    as (Hattrs & Hroot & Hargv & Hfs & Htr).
  split; [|done].
  unfold constructed. split_and!; apply Hattrs; cbn; unfold assigned; cbn;
    eexists; by simplify_map_eq.
Qed.
End LaunchFacts.

(** ** [example.py] under a hang-up

    The example enables reloading but has no configuration file, so the
    parser has no [--cfg].  A hang-up while its loop runs reaches
    [load_cfgfile], whose first statement reads [self.args.cfg]: the
    [AttributeError] leaves the handler, ends the loop and is logged by
    [run], which returns. *)
Lemma example_hangup :
  let outcome := Example.main (WSighup (WRaise KeyboardInterrupt)) (boot [] sample_disk) in
  outcome.1 = Ok tt /\
  trace outcome.2 =
    plan (VBool true) (VBool false) ++
    [Call "sighup_handler" [VInt CmdlApp.SIGHUP; VNone]; Call "on_reload" [];
     Call "load_cfgfile" []] /\
  (Logging.exc_info <$> last (records outcome.2)) =
    Some (Some (AttributeError "'Namespace' object has no attribute 'cfg'")).
Proof. vm_compute. split_and!; reflexivity. Qed.

(** ** More on [__init__] and [configure] *)

Section ConfigureMore.
Implicit Types (w : World) (kwargs : list (string * value)).

Lemma configure_frame kwargs w :
  let w' := (CmdlApp.configure kwargs w).2 in
  (forall k, k ∉ kwargs.*1 -> attrs w' !! k = attrs w !! k) /\
  (forall k, is_Some (attrs w !! k) -> is_Some (attrs w' !! k)) /\
  same_but_attrs w w'.
Proof.
  revert w. induction kwargs as [|[k v] rest IH]; intros w; cbn.
  - unfold same_but_attrs. done.
  - case_bool_decide; [|unfold same_but_attrs; done].
    erewrite bind_Ok by reflexivity.
    destruct (IH (set_attrs (fun d => <[k:=v]> d) w)) as (Hother & Hkeep & Hsame).
    split_and!.
    + intros k' Hk'. apply not_elem_of_cons in Hk' as [Hne Hk'].
      rewrite Hother by done. cbn. by apply lookup_insert_ne.
    + intros k' Hk'. apply Hkeep. cbn.
      apply lookup_insert_is_Some. destruct (decide (k = k')); auto.
    + exact Hsame.
Qed.
End ConfigureMore.

(** X1.  Whatever the instance was before, [__init__] returns normally and
    leaves the four defaults to be read back: no configuration file, no
    reloading, the name of the class as the name of the tool, version
    ['0.0-dev'].  It sets no [main_fct]: an attribute of that name is what
    it was, and nothing but the instance dictionary changes. *)
Theorem init_sets_defaults (cls : CmdlApp.Class) (w : World) :
  exists w',
    CmdlApp.__init__ cls w = (Ok tt, w') /\
    CmdlApp.getattr cls "has_cfgfile" w' = (Ok (VBool false), w') /\
    CmdlApp.getattr cls "reload_on_hup" w' = (Ok (VBool false), w') /\
    CmdlApp.getattr cls "tool_name" w' = (Ok (VStr (CmdlApp.cls_name cls)), w') /\
    CmdlApp.getattr cls "tool_version" w' = (Ok (VStr "0.0-dev"), w') /\
    attrs w' !! "main_fct" = attrs w !! "main_fct" /\
    same_but_attrs w w'.
Proof.
  unfold CmdlApp.__init__.
  eexists. split.
  { apply configure_recognized. cbn. repeat constructor. }
  split_and!; try (apply getattr_lookup; cbn; unfold assigned; cbn; by simplify_map_eq).
  - cbn. unfold assigned. cbn. by simplify_map_eq.
  - unfold same_but_attrs. done.
Qed.

(** X2.  Keywords may be spread over several calls: calling [configure]
    with some keywords and then again with further ones is, in result and
    in effect, one call with all of them in that order.  This holds also
    when a keyword is not recognized: both ways stop at it. *)
Theorem configure_in_two_calls (kwargs more : list (string * value)) (w : World) :
  (CmdlApp.configure kwargs;; CmdlApp.configure more) w =
  CmdlApp.configure (kwargs ++ more) w.
Proof.
  revert w. induction kwargs as [|[k v] rest IH]; intros w; [reflexivity|].
  cbn [app CmdlApp.configure]. case_bool_decide; [|reflexivity].
  unfold bind, CmdlApp.setattr, modify. cbn.
  rewrite <- IH. reflexivity.
Qed.

(** X3.  Whether it returns or raises, [configure] changes nothing but the
    instance dictionary; there, an attribute that is not among the
    keywords keeps its value, and no attribute that existed disappears. *)
Theorem configure_touches_named_attributes_only
    (kwargs : list (string * value)) (w : World) (k : string) :
  k ∉ kwargs.*1 ->
  let w' := (CmdlApp.configure kwargs w).2 in
  attrs w' !! k = attrs w !! k /\
  (forall k', is_Some (attrs w !! k') -> is_Some (attrs w' !! k')) /\
  same_but_attrs w w'.
Proof.
  intros Hk w'. destruct (configure_frame kwargs w) as (Hother & Hkeep & Hsame).
  split; [by apply Hother|]. split; [exact Hkeep|exact Hsame].
Qed.

Lemma configure_touches_named_attributes_only_witness :
  let w := launched CmdlApp.CmdlApp [] [] sample_disk in
  let kwargs := [("reload_on_hup", VBool true); ("colour", VStr "red");
                 ("tool_name", VStr "late")] in
  let w' := (CmdlApp.configure kwargs w).2 in
  attrs w' !! "tool_version" = attrs w !! "tool_version" /\
  (forall k', is_Some (attrs w !! k') -> is_Some (attrs w' !! k')) /\
  same_but_attrs w w'.
Proof.
  intros w kwargs.
  assert ("tool_version" ∉ kwargs.*1) as Hk by compute_done.
  exact (configure_touches_named_attributes_only kwargs w "tool_version" Hk).
Defined.

(** ** Runs that end early, and one that does not *)

Section EdgeFacts.
Variable cls : CmdlApp.Class.

Lemma load_cfgfile_no_cfg w ns :
  args w = Some ns -> ns !! "cfg" = None ->
  CmdlApp.load_cfgfile cls w = (Raise no_cfg, w).
Proof.
  intros Ha Hc. unfold CmdlApp.load_cfgfile.
  erewrite bind_Raise; [reflexivity|].
  unfold CmdlApp.args_attr, bind, get. cbn. by rewrite Ha, Hc.
Qed.

Lemma plan_steps_without_main r (h : bool) :
  Call "main_fct" [] ∉
    [Call "setup_args" []; Call "parse_args" []; Call "setup_logging" []] ++
    (if truthy r then [Call "signal.signal" [VInt CmdlApp.SIGHUP]] else []) ++
    (if h then [Call "load_cfgfile" []] else []).
Proof. destruct (truthy r), h; cbn; set_solver. Qed.
End EdgeFacts.

(** X4.  When the parser ends the run, it does so with [SystemExit(2)]
    after an error or with [SystemExit(0)] after printing the help; the
    process exits with that status, and besides the parser itself nothing
    has happened yet: no record is written, the root logger is not
    configured, no handler is registered and no configuration is loaded. *)
Theorem rejected_command_line_stops_run (cls : CmdlApp.Class) (w : World) (e : exn) :
  is_Some (attrs w !! "has_cfgfile") ->
  Argparse.parse_args (flags (attr w "has_cfgfile")) (argv w) = Raise e ->
  let w' := (CmdlApp.run cls w).2 in
  (exists status, e = SystemExit status /\ (status = 0 \/ status = 2) /\
                  exit_status (CmdlApp.run cls w).1 = Exit status) /\
  (CmdlApp.run cls w).1 = Raise e /\
  records w' = records w /\ root w' = root w /\ sighup w' = sighup w /\
  cfg w' = cfg w /\ args w' = args w /\ attrs w' = attrs w /\
  trace w' = trace w ++ [Call "setup_args" []; Call "parse_args" []].
Proof.
  intros Hh Hrej.
  cbn zeta. rewrite run_phases.
  erewrite bind_Raise by (by apply startup_rejected).
  split.
  - destruct (parse_args_code _ _ _ Hrej) as [->| ->]; eexists; eauto.
  - cbn. rewrite <- app_assoc. done.
Qed.

Lemma rejected_command_line_stops_run_witness :
  let w := launched CmdlApp.CmdlApp [[("has_cfgfile", VBool true)]] ["--colour"] sample_disk in
  let v := launched CmdlApp.CmdlApp [[("has_cfgfile", VBool true)]]
             ["--cfg"; "app.yaml"; "-h"] sample_disk in
  (CmdlApp.run CmdlApp.CmdlApp w).1 = Raise (SystemExit 2) /\
  records (CmdlApp.run CmdlApp.CmdlApp w).2 = records w /\
  (CmdlApp.run CmdlApp.CmdlApp v).1 = Raise (SystemExit 0) /\
  records (CmdlApp.run CmdlApp.CmdlApp v).2 = records v.
Proof.
  intros w v.
  assert (is_Some (attrs w !! "has_cfgfile")) as Hw by (eexists; vm_compute; reflexivity).
  assert (is_Some (attrs v !! "has_cfgfile")) as Hv by (eexists; vm_compute; reflexivity).
  assert (Argparse.parse_args (flags (attr w "has_cfgfile")) (argv w) =
          Raise (SystemExit 2)) as Herror by (vm_compute; reflexivity).
  assert (Argparse.parse_args (flags (attr v "has_cfgfile")) (argv v) =
          Raise (SystemExit 0)) as Hhelp by (vm_compute; reflexivity).
  destruct (rejected_command_line_stops_run CmdlApp.CmdlApp w _ Hw Herror)
    as (_ & Hrun & Hrec & _).
  destruct (rejected_command_line_stops_run CmdlApp.CmdlApp v _ Hv Hhelp)
    as (_ & Hrun' & Hrec' & _).
  exact (conj Hrun (conj Hrec (conj Hrun' Hrec'))).
Defined.

(** X5.  [setup_args] adds [--cfg] when [has_cfgfile == True], [run] loads
    the file when [has_cfgfile] is true in the sense of [if].  For a value
    that is the one but not the other, such as [2] or ['yes'], a run with
    an accepted command line and a log file that opens, if there is one,
    reaches [load_cfgfile] without a [cfg] in the
    namespace: [run] ends with the [AttributeError] of [self.args.cfg],
    the process exits with status 1, nothing is loaded and the work
    function is not called. *)
Theorem has_cfgfile_true_but_not_True
    (cls : CmdlApp.Class) (w : World) (ns : gmap string value) :
  constructed w -> root w = None ->
  truthy (attr w "has_cfgfile") = true ->
  eq_True (attr w "has_cfgfile") = false ->
  Argparse.parse_args (flags (attr w "has_cfgfile")) (argv w) = Ok ns ->
  log_failure w ns = None ->
  (CmdlApp.run cls w).1 = Raise no_cfg /\
  exit_status (CmdlApp.run cls w).1 = Exit 1 /\
  cfg (CmdlApp.run cls w).2 = cfg w /\
  exists steps, trace (CmdlApp.run cls w).2 = trace w ++ steps /\
                Call "main_fct" [] ∉ steps.
Proof.
  intros Hc Hroot Htruthy Hnot Hns Hopen.
  destruct (parse_args_flags _ _ _ Hns) as (_ & _ & Hcfg). rewrite Hnot in Hcfg.
  destruct (prepared_fields w ns) as (_ & Hargs & _ & _ & _ & Htr).
  assert (startup cls w =
          (Raise no_cfg, add_event (Call "load_cfgfile" []) (prepared w ns))) as Hs.
  { rewrite (startup_prepared cls w ns Hc Hroot Hns Hopen), Htruthy, call_unfold.
    apply (load_cfgfile_no_cfg cls _ ns); [exact Hargs|exact Hcfg]. }
  rewrite run_phases. erewrite bind_Raise by exact Hs.
  split; [done|]. split; [done|]. split.
  - cbn. unfold prepared. by destruct (truthy (attr w "reload_on_hup")).
  - eexists. split.
    + cbn [snd trace add_event]. rewrite Htr, <- !app_assoc. reflexivity.
    + apply (plan_steps_without_main (attr w "reload_on_hup") true).
Qed.

Lemma has_cfgfile_true_but_not_True_witness :
  let w := launched CmdlApp.CmdlApp [[("has_cfgfile", VInt 2)]] ["-v"] sample_disk in
  (CmdlApp.run CmdlApp.CmdlApp w).1 = Raise no_cfg /\
  exit_status (CmdlApp.run CmdlApp.CmdlApp w).1 = Exit 1 /\
  cfg (CmdlApp.run CmdlApp.CmdlApp w).2 = cfg w /\
  exists steps, trace (CmdlApp.run CmdlApp.CmdlApp w).2 = trace w ++ steps /\
                Call "main_fct" [] ∉ steps.
Proof.
  intros w.
  assert (constructed w) as Hc
    by (unfold constructed; split_and!; eexists; vm_compute; reflexivity).
  assert (root w = None) as Hroot by (vm_compute; reflexivity).
  assert (truthy (attr w "has_cfgfile") = true) as Ht by (vm_compute; reflexivity).
  assert (eq_True (attr w "has_cfgfile") = false) as Hn by (vm_compute; reflexivity).
  assert (match Argparse.parse_args (flags (attr w "has_cfgfile")) (argv w) with
          | Ok parsed_ns => log_failure w parsed_ns
          | _ => None
          end = None) as Hopen by (vm_compute; reflexivity).
  destruct (Argparse.parse_args (flags (attr w "has_cfgfile")) (argv w))
    as [ns| |] eqn:Hns; [|vm_compute in Hns; discriminate..].
  exact (has_cfgfile_true_but_not_True CmdlApp.CmdlApp w ns Hc Hroot Ht Hn Hns Hopen).
Defined.

(** X6.  With [has_cfgfile] true, an accepted command line, a log file
    that opens and is not the configuration file, and a well-formed file
    at the path given with [--cfg], the statements of [run] before the
    work function complete, and what remains of [run] is the [try]
    statement around [self.main_fct()], executed in a world whose
    configuration is the content of the file: the work function sees the
    loaded configuration from its first step. *)
Theorem configuration_loaded_before_work
    (cls : CmdlApp.Class) (w : World) (ns : gmap string value) (p : string) (doc : yaml) :
  constructed w -> root w = None ->
  eq_True (attr w "has_cfgfile") = true ->
  Argparse.parse_args (flags (attr w "has_cfgfile")) (argv w) = Ok ns ->
  log_failure w ns = None -> log_apart ns ->
  ns !! "cfg" = Some (VStr p) ->
  fs w !! p = Some (WellFormed doc) ->
  exists w0,
    cfg w0 = Some doc /\ attrs w0 = attrs w /\ fs w0 = fs w /\
    records w0 = records w ++
      [banner w ns; level_note ns;
       info_record (lcfg ns) ("Loading config file '" +:+ p +:+ "'.")] /\
    CmdlApp.run cls w =
      try_except (call "main_fct" [] (CmdlApp.self_main_fct cls)) guard w0.
Proof.
  intros Hc Hroot Hh Hns Hopen _ Hp Hfile.
  destruct (startup_loads cls w ns Hc Hroot Hh Hns Hopen) as (path & Hp' & _ & Hs).
  assert (path = VStr p) as -> by congruence.
  destruct (parse_args_flags _ _ _ Hns) as (Hv & _ & _).
  destruct (prepared_fields w ns) as (Hattrs & Hargs & Hr & Hfs & Hrec & _).
  rewrite (load_cfgfile_spec cls _ ns p (lcfg ns)) in Hs;
    [|by cbn|done|done|by cbn|apply lcfg_level].
  cbn [fs add_event] in Hs. rewrite Hfs, Hfile in Hs. cbn zeta in Hs.
  eexists. split_and!; cycle 4.
  - rewrite run_phases. erewrite bind_Ok by exact Hs. reflexivity.
  - reflexivity.
  - exact Hattrs.
  - exact Hfs.
  - cbn. rewrite Hrec, <- app_assoc. reflexivity.
Qed.

Lemma configuration_loaded_before_work_witness :
  let w := launched CmdlApp.CmdlApp [[("has_cfgfile", VBool true)]]
             ["--logfile"; "tool.log"; "--cfg"; "app.yaml"] sample_disk in
  exists w0,
    cfg w0 = Some (YMap [("key", YInt 1)]) /\
    CmdlApp.run CmdlApp.CmdlApp w =
      try_except (call "main_fct" [] (CmdlApp.self_main_fct CmdlApp.CmdlApp)) guard w0.
Proof.
  intros w.
  assert (constructed w) as Hc
    by (unfold constructed; split_and!; eexists; vm_compute; reflexivity).
  assert (root w = None) as Hroot by (vm_compute; reflexivity).
  assert (eq_True (attr w "has_cfgfile") = true) as Hh by (vm_compute; reflexivity).
  assert (match Argparse.parse_args (flags (attr w "has_cfgfile")) (argv w) with
          | Ok parsed_ns => parsed_ns !! "cfg"
          | _ => None
          end = Some (VStr "app.yaml")) as Hp by (vm_compute; reflexivity).
  assert (match Argparse.parse_args (flags (attr w "has_cfgfile")) (argv w) with
          | Ok parsed_ns => log_failure w parsed_ns
          | _ => None
          end = None) as Hopen by (vm_compute; reflexivity).
  assert (match Argparse.parse_args (flags (attr w "has_cfgfile")) (argv w) with
          | Ok parsed_ns => log_apart parsed_ns
          | _ => True
          end) as Hapart by (vm_compute; discriminate).
  destruct (Argparse.parse_args (flags (attr w "has_cfgfile")) (argv w))
    as [ns| |] eqn:Hns; [|discriminate..].
  assert (fs w !! "app.yaml" = Some (WellFormed (YMap [("key", YInt 1)]))) as Hfile
    by (vm_compute; reflexivity).
  destruct (configuration_loaded_before_work CmdlApp.CmdlApp w ns "app.yaml" _
              Hc Hroot Hh Hns Hopen Hapart Hp Hfile) as (w0 & Hcfg & _ & _ & _ & Hrun).
  exists w0. exact (conj Hcfg Hrun).
Defined.

(** X7.  [configure] takes any value for [main_fct].  When it is not a
    function, the call [self.main_fct()] raises a [TypeError] inside the
    [try] statement of [run]: it is logged as a failure of the main
    function and [run] returns normally. *)
Theorem non_callable_main_fct_is_reported
    (cls : CmdlApp.Class) (w w0 : World) (v : value) :
  constructed w -> root w = None ->
  attrs w !! "main_fct" = Some v -> (forall body, v <> VFun body) ->
  startup cls w = (Ok tt, w0) ->
  exists c,
    root w0 = Some c /\
    CmdlApp.run cls w =
      (Ok tt,
       add_record
         (error_record c "Main function failed."
            (Some (TypeError ("'" +:+ CmdlApp.type_name v +:+ "' object is not callable"))))
         (add_event (Call "main_fct" []) w0)) /\
    exit_status (CmdlApp.run cls w).1 = Exit 0.
Proof.
  intros Hc Hroot Hv Hfun Hs.
  destruct (startup_ready cls w w0 Hc Hroot Hs) as (ns & Hr0 & Hattrs).
  exists (lcfg ns). split; [done|].
  assert (CmdlApp.self_main_fct cls (add_event (Call "main_fct" []) w0) =
          (Raise (TypeError ("'" +:+ CmdlApp.type_name v +:+ "' object is not callable")),
           add_event (Call "main_fct" []) w0)) as Hcall.
  { unfold CmdlApp.self_main_fct, bind, get. cbn. rewrite Hattrs, Hv.
    destruct v; try reflexivity. by destruct (Hfun body). }
  assert (CmdlApp.run cls w =
      (Ok tt,
       add_record
         (error_record (lcfg ns) "Main function failed."
            (Some (TypeError ("'" +:+ CmdlApp.type_name v +:+ "' object is not callable"))))
         (add_event (Call "main_fct" []) w0))) as ->; [|done].
  rewrite run_phases. erewrite bind_Ok by exact Hs.
  rewrite work_phase_unfold. unfold try_except. rewrite Hcall.
  rewrite (guard_emitted (lcfg ns)); [reflexivity|exact Hr0|apply lcfg_level].
Qed.

Lemma non_callable_main_fct_is_reported_witness :
  let cls := CmdlApp.CmdlApp in
  let w := launched cls [[("main_fct", VInt 5)]] [] sample_disk in
  let w0 := (startup cls w).2 in
  exists c,
    root w0 = Some c /\
    CmdlApp.run cls w =
      (Ok tt,
       add_record
         (error_record c "Main function failed."
            (Some (TypeError ("'" +:+ CmdlApp.type_name (VInt 5) +:+ "' object is not callable"))))
         (add_event (Call "main_fct" []) w0)) /\
    exit_status (CmdlApp.run cls w).1 = Exit 0.
Proof.
  intros cls w w0.
  apply (non_callable_main_fct_is_reported cls w w0 (VInt 5)).
  - unfold constructed. split_and!; eexists; vm_compute; reflexivity.
  - vm_compute; reflexivity.
  - vm_compute; reflexivity.
  - discriminate.
  - vm_compute; reflexivity.
Defined.

(** ** Loading again *)

Section ReloadMore.
Variable cls : CmdlApp.Class.


Lemma sighup_handler_no_cfg stack w r c ns :
  attrs w !! "reload_on_hup" = Some r -> truthy r = true ->
  CmdlApp.cls_on_reload cls = None ->
  root w = Some c -> (Logging.level c <= Logging.INFO)%Z ->
  args w = Some ns -> ns !! "cfg" = None ->
  CmdlApp.sighup_handler cls CmdlApp.SIGHUP stack w =
    (Raise no_cfg, reloading c (add_event (Call "on_reload" []) w)).
Proof.
  intros Hr Ht Hcls Hroot Hl Hargs Hp.
  rewrite (sighup_handler_dispatches cls stack w r Hr Ht).
  unfold CmdlApp.self_on_reload. rewrite Hcls.
  rewrite (on_reload_enabled cls _ r c) by done.
  by apply (load_cfgfile_no_cfg cls _ ns).
Qed.
End ReloadMore.

(** X8.  A load that fails leaves the configuration loaded before in
    place.  For a missing, unreadable or malformed file [load_cfgfile]
    writes its info record and one ERROR record, raises [SystemExit(1)]
    and changes neither the configuration of the instance nor the files. *)
Theorem failed_load_keeps_configuration
    (cls : CmdlApp.Class) (w : World) (ns : gmap string value) (p : string)
    (c : Logging.Config) (e : exn) :
  args w = Some ns -> ns !! "cfg" = Some (VStr p) -> is_Some (ns !! "verbose") ->
  root w = Some c -> (Logging.level c <= Logging.INFO)%Z ->
  load_failure (fs w !! p) = Some e ->
  let w' := (CmdlApp.load_cfgfile cls w).2 in
  (CmdlApp.load_cfgfile cls w).1 = Raise (SystemExit 1) /\
  cfg w' = cfg w /\ fs w' = fs w /\
  records w' = records w ++
    [info_record c ("Loading config file '" +:+ p +:+ "'.");
     error_record c ("Failed to load config file '" +:+ p +:+ "'.")
       (if truthy (option_of ns "verbose") then Some e else None)].
Proof.
  intros Hargs Hp Hv Hroot Hl Hfail.
  rewrite (load_cfgfile_spec cls w ns p c Hargs Hp Hv Hroot Hl).
  destruct (fs w !! p) as [[| |doc]|]; cbn in Hfail; try discriminate.
  all: injection Hfail as <-; cbn; rewrite <- app_assoc; done.
Qed.

Lemma failed_load_keeps_configuration_witness :
  let cls := Example.Example WReturn in
  let w0 := (startup cls
               (launched cls [[("has_cfgfile", VBool true)]] ["-c"; "app.yaml"] sample_disk)).2 in
  let w := set_fs (fun disk => <["app.yaml" := Malformed]> disk) w0 in
  (CmdlApp.load_cfgfile cls w).1 = Raise (SystemExit 1) /\
  cfg (CmdlApp.load_cfgfile cls w).2 = Some (YMap [("key", YInt 1)]).
Proof.
  intros cls w0 w.
  destruct (args w) as [ns|] eqn:Hargs; [|vm_compute in Hargs; discriminate].
  assert (args w ≫= (fun parsed_ns => parsed_ns !! "cfg") = Some (VStr "app.yaml")) as Hp
    by (vm_compute; reflexivity).
  assert (is_Some (args w ≫= (fun parsed_ns => parsed_ns !! "verbose"))) as Hv
    by (eexists; vm_compute; reflexivity).
  rewrite Hargs in Hp, Hv. cbn in Hp, Hv.
  assert (exists c, root w = Some c /\ (Logging.level c <= Logging.INFO)%Z)
    as (c & Hroot & Hlevel)
    by (eexists; split; [vm_compute; reflexivity|vm_compute; discriminate]).
  assert (load_failure (fs w !! "app.yaml") = Some (YAMLError "could not parse the document"))
    as Hfail by (vm_compute; reflexivity).
  destruct (failed_load_keeps_configuration cls w ns "app.yaml" c _
              Hargs Hp Hv Hroot Hlevel Hfail) as (Hout & Hcfg & _).
  split; [exact Hout|]. rewrite Hcfg. vm_compute; reflexivity.
Defined.





(** X11.  Reloading needs a configuration file.  When reloading is
    enabled but the parser was built without [--cfg], a SIGHUP makes the
    inherited [on_reload] write its info record and call [load_cfgfile],
    whose first statement reads [self.args.cfg]: the handler raises the
    [AttributeError] and the configuration is what it was. *)
Theorem reload_without_cfg_option_raises
    (cls : CmdlApp.Class) (stack : value) (w : World) (r : value)
    (c : Logging.Config) (ns : gmap string value) :
  attrs w !! "reload_on_hup" = Some r -> truthy r = true ->
  CmdlApp.cls_on_reload cls = None ->
  root w = Some c -> (Logging.level c <= Logging.INFO)%Z ->
  args w = Some ns -> ns !! "cfg" = None ->
  let w' := (CmdlApp.sighup_handler cls CmdlApp.SIGHUP stack w).2 in
  (CmdlApp.sighup_handler cls CmdlApp.SIGHUP stack w).1 = Raise no_cfg /\
  cfg w' = cfg w /\
  records w' = records w ++ [info_record c "Reloading configuration due to SIGHUP signal."] /\
  trace w' = trace w ++ [Call "on_reload" []; Call "load_cfgfile" []].
Proof.
  intros Hr Ht Hcls Hroot Hl Hargs Hp.
  rewrite (sighup_handler_no_cfg cls stack w r c ns) by done.
  cbn. rewrite <- app_assoc. done.
Qed.

Lemma reload_without_cfg_option_raises_witness :
  let cls := Example.Example WReturn in
  let w := (startup cls (launched cls [[("reload_on_hup", VBool true)]] [] sample_disk)).2 in
  (CmdlApp.sighup_handler cls CmdlApp.SIGHUP VNone w).1 = Raise no_cfg /\
  cfg (CmdlApp.sighup_handler cls CmdlApp.SIGHUP VNone w).2 = cfg w.
Proof.
  intros cls w.
  assert (attrs w !! "reload_on_hup" = Some (VBool true)) as Hr
    by (vm_compute; reflexivity).
  destruct (args w) as [ns|] eqn:Hargs; [|vm_compute in Hargs; discriminate].
  assert (args w ≫= (fun parsed_ns => parsed_ns !! "cfg") = None) as Hp
    by (vm_compute; reflexivity).
  rewrite Hargs in Hp. cbn in Hp.
  assert (exists c, root w = Some c /\ (Logging.level c <= Logging.INFO)%Z)
    as (c & Hroot & Hlevel)
    by (eexists; split; [vm_compute; reflexivity|vm_compute; discriminate]).
  destruct (reload_without_cfg_option_raises cls VNone w (VBool true) c ns
              Hr eq_refl eq_refl Hroot Hlevel Hargs Hp) as (Hout & Hcfg & _).
  exact (conj Hout Hcfg).
Defined.

(** ** Reloading without a file; the log *)

Section HangupFacts.
Variable cls : CmdlApp.Class.

Lemma not_truthy_not_True v : truthy v = false -> eq_True v = false.
Proof.
  intros Hf. destruct (eq_True v) eqn:He; [|done].
  apply eq_True_truthy in He. congruence.
Qed.

Lemma prepared_sighup w ns :
  truthy (attr w "reload_on_hup") = true -> sighup (prepared w ns) = true.
Proof. intros Ht. unfold prepared. by rewrite Ht. Qed.
End HangupFacts.

(** X12.  A tool that enables reloading but has no configuration file, as
    the one of [example.py], does not survive a hang-up.  Let its command
    line be accepted and its log file, if any, open.  When the signal
    is the first thing that happens to its work function, the handler
    raises the [AttributeError] of [self.args.cfg], the rest of the work
    function is never executed, [run] logs the failure of the main
    function and returns, and the process exits with status 0 with no
    configuration loaded. *)
Theorem reload_without_cfgfile_ends_work
    (cls : CmdlApp.Class) (w : World) (ns : gmap string value) (k : work) :
  constructed w -> root w = None ->
  truthy (attr w "reload_on_hup") = true ->
  truthy (attr w "has_cfgfile") = false ->
  CmdlApp.cls_on_reload cls = None ->
  attrs w !! "main_fct" = None ->
  CmdlApp.cls_main_fct cls = Some (WSighup k) ->
  Argparse.parse_args (flags (attr w "has_cfgfile")) (argv w) = Ok ns ->
  log_failure w ns = None ->
  let w' := (CmdlApp.run cls w).2 in
  (CmdlApp.run cls w).1 = Ok tt /\
  exit_status (CmdlApp.run cls w).1 = Exit 0 /\
  cfg w' = cfg w /\
  trace w' =
    trace w ++ plan (attr w "reload_on_hup") (attr w "has_cfgfile") ++
    [Call "sighup_handler" [VInt CmdlApp.SIGHUP; VNone]; Call "on_reload" [];
     Call "load_cfgfile" []] /\
  records w' =
    records w ++
    [banner w ns; level_note ns;
     info_record (lcfg ns) "Reloading configuration due to SIGHUP signal.";
     error_record (lcfg ns) "Main function failed." (Some no_cfg)].
Proof.
  intros Hc Hroot Hr Hh Hcls Hattr Hmain Hns Hopen.
  destruct (parse_args_flags _ _ _ Hns) as (_ & _ & Hcfg).
  rewrite (not_truthy_not_True _ Hh) in Hcfg.
  destruct (prepared_fields w ns) as (Hattrs & Hargs & Hroot0 & _ & Hrec & Htr).
  pose proof (prepared_sighup w ns Hr) as Hsig.
  assert (exists r, attrs w !! "reload_on_hup" = Some r /\ truthy r = true)
    as (r & Hr_lookup & Hr_truthy).
  { destruct Hc as (_ & [r Hlr] & _). exists r. split; [done|].
    by rewrite (attr_lookup _ _ _ Hlr) in Hr. }
  assert (startup cls w = (Ok tt, prepared w ns)) as Hs.
  { rewrite (startup_prepared cls w ns Hc Hroot Hns Hopen). by rewrite Hh. }
  set (w1 := add_event (Call "main_fct" []) (prepared w ns)).
  set (w2 := add_event (Call "sighup_handler" [VInt CmdlApp.SIGHUP; VNone]) w1).
  assert (CmdlApp.self_main_fct cls w1 =
          (Raise no_cfg, reloading (lcfg ns) (add_event (Call "on_reload" []) w2)))
    as Hwork.
  { unfold CmdlApp.self_main_fct, bind at 1, get. cbn [attrs w1 add_event].
    rewrite Hattrs, Hattr, Hmain. cbn [CmdlApp.perform].
    erewrite bind_Raise; [reflexivity|].
    unfold CmdlApp.hangup, bind at 1, get. cbn [sighup w1 add_event].
    rewrite Hsig, call_unfold.
    apply (sighup_handler_no_cfg cls VNone w2 r (lcfg ns) ns); try done.
    - cbn. by rewrite Hattrs.
    - apply lcfg_level. }
  assert (CmdlApp.run cls w =
          (Ok tt,
           add_record (error_record (lcfg ns) "Main function failed." (Some no_cfg))
             (reloading (lcfg ns) (add_event (Call "on_reload" []) w2)))) as ->.
  { rewrite run_phases. erewrite bind_Ok by exact Hs.
    rewrite work_phase_unfold. unfold try_except. fold w1. rewrite Hwork.
    rewrite (guard_emitted (lcfg ns)); [reflexivity|exact Hroot0|apply lcfg_level]. }
  cbn zeta. split; [done|]. split; [done|]. split; [|split].
  - cbn. unfold prepared. by destruct (truthy (attr w "reload_on_hup")).
  - cbn [snd trace add_record reloading add_event w2 w1]. rewrite Htr.
    unfold plan. rewrite Hr, Hh. rewrite <- !app_assoc. reflexivity.
  - cbn [snd records add_record reloading add_event w2 w1]. rewrite Hrec.
    rewrite <- !app_assoc. reflexivity.
Qed.

Lemma reload_without_cfgfile_ends_work_witness :
  let loop := WSighup (WLog Logging.INFO "Hello World!" (WRaise KeyboardInterrupt)) in
  let w := (Example.__init__ loop (boot [] sample_disk)).2 in
  (CmdlApp.run (Example.Example loop) w).1 = Ok tt /\
  exit_status (CmdlApp.run (Example.Example loop) w).1 = Exit 0 /\
  cfg (CmdlApp.run (Example.Example loop) w).2 = None /\
  (Logging.exc_info <$> last (records (CmdlApp.run (Example.Example loop) w).2)) =
    Some (Some no_cfg).
Proof.
  intros loop w.
  assert (constructed w) as Hc
    by (unfold constructed; split_and!; eexists; vm_compute; reflexivity).
  assert (root w = None) as Hroot by (vm_compute; reflexivity).
  assert (truthy (attr w "reload_on_hup") = true) as Hr by (vm_compute; reflexivity).
  assert (truthy (attr w "has_cfgfile") = false) as Hh by (vm_compute; reflexivity).
  assert (attrs w !! "main_fct" = None) as Hattr by (vm_compute; reflexivity).
  assert (match Argparse.parse_args (flags (attr w "has_cfgfile")) (argv w) with
          | Ok parsed_ns => log_failure w parsed_ns
          | _ => None
          end = None) as Hopen by (vm_compute; reflexivity).
  destruct (Argparse.parse_args (flags (attr w "has_cfgfile")) (argv w))
    as [ns| |] eqn:Hns; [|vm_compute in Hns; discriminate..].
  destruct (reload_without_cfgfile_ends_work (Example.Example loop) w ns _
              Hc Hroot Hr Hh eq_refl Hattr eq_refl Hns Hopen)
    as (Hout & Hexit & Hcfg & _ & Hrec).
  split; [exact Hout|]. split; [exact Hexit|].
  split; [rewrite Hcfg; vm_compute; reflexivity|].
  rewrite Hrec. vm_compute. reflexivity.
Defined.

(** X13.  On a fresh root logger [setup_logging] sends the log to the
    file given with [--logfile], opened for appending, and writes its two
    records there.  When that file cannot be opened, [setup_logging]
    raises the [OSError] of [logging.basicConfig] and leaves everything as
    it was: the root logger is not configured and nothing is logged.  When
    the option is absent, or its value is empty, the log goes to the
    default stream. *)
Theorem log_file_is_appended_to
    (cls : CmdlApp.Class) (w : World) (ns : gmap string value) (logfile : value) :
  args w = Some ns -> is_Some (ns !! "verbose") -> ns !! "logfile" = Some logfile ->
  is_Some (attrs w !! "tool_name") -> is_Some (attrs w !! "tool_version") ->
  root w = None ->
  let w' := (CmdlApp.setup_logging cls w).2 in
  (forall path, logfile = VStr path -> path <> "" -> path ∈ locked w ->
     CmdlApp.setup_logging cls w = (Raise (OSError "Permission denied"), w)) /\
  (forall path, logfile = VStr path -> path <> "" -> path ∉ locked w ->
     exists c first second,
       (CmdlApp.setup_logging cls w).1 = Ok tt /\
       root w' = Some c /\
       records w' = records w ++ [first; second] /\
       Logging.sink first = Some (VStr path) /\
       Logging.sink second = Some (VStr path) /\
       Logging.filename c = Some (VStr path) /\ Logging.filemode c = Some "a") /\
  (truthy logfile = false ->
     exists c first second,
       (CmdlApp.setup_logging cls w).1 = Ok tt /\
       root w' = Some c /\
       records w' = records w ++ [first; second] /\
       Logging.sink first = None /\ Logging.sink second = None /\
       Logging.filename c = None /\ Logging.filemode c = None).
Proof.
  intros Hargs Hv Hlf Htn Htv Hroot.
  pose proof (setup_logging_spec cls w ns Hargs Hv (ex_intro _ _ Hlf) Htn Htv Hroot) as Hspec.
  assert (forall path, logfile = VStr path -> path <> "" ->
            truthy (option_of ns "logfile") = true) as Htruthy.
  { intros path -> Hne. rewrite (option_of_lookup _ _ _ Hlf). cbn.
    by destruct (String.eqb_spec path ""). }
  cbn zeta. split_and!.
  - intros path -> Hne Hlocked.
    rewrite Hspec. unfold log_failure. rewrite (Htruthy path eq_refl Hne).
    rewrite (option_of_lookup _ _ _ Hlf). by rewrite bool_decide_eq_true_2.
  - intros path -> Hne Hfree.
    rewrite Hspec. unfold log_failure. rewrite (Htruthy path eq_refl Hne).
    rewrite (option_of_lookup _ _ _ Hlf). rewrite bool_decide_eq_false_2 by done.
    exists (lcfg ns), (banner w ns), (level_note ns). cbn.
    rewrite <- app_assoc, (Htruthy path eq_refl Hne).
    by rewrite (option_of_lookup _ _ _ Hlf).
  - intros Hfalse.
    rewrite Hspec. unfold log_failure. rewrite (option_of_lookup _ _ _ Hlf), Hfalse.
    exists (lcfg ns), (banner w ns), (level_note ns). cbn.
    rewrite <- app_assoc. by rewrite (option_of_lookup _ _ _ Hlf), Hfalse.
Qed.

Lemma log_file_is_appended_to_witness :
  let cls := CmdlApp.CmdlApp in
  let w0 := launched cls [] ["-l"; "tool.log"] sample_disk in
  let w := set_args (Some (default ∅ (match Argparse.parse_args (flags (VBool false)) (argv w0) with
                                      | Ok parsed_ns => Some parsed_ns
                                      | _ => None
                                      end))) w0 in
  let v := set_locked {["tool.log"]} w in
  CmdlApp.setup_logging cls v = (Raise (OSError "Permission denied"), v) /\
  exists c first second,
    root (CmdlApp.setup_logging cls w).2 = Some c /\
    records (CmdlApp.setup_logging cls w).2 = records w ++ [first; second] /\
    Logging.sink first = Some (VStr "tool.log") /\
    Logging.sink second = Some (VStr "tool.log") /\
    Logging.filemode c = Some "a".
Proof.
  intros cls w0 w v.
  destruct (args w) as [ns|] eqn:Hargs; [|vm_compute in Hargs; discriminate].
  assert (args v = Some ns) as Hargs' by exact Hargs.
  assert (is_Some (args w ≫= (fun parsed_ns => parsed_ns !! "verbose"))) as Hv
    by (eexists; vm_compute; reflexivity).
  assert (args w ≫= (fun parsed_ns => parsed_ns !! "logfile") = Some (VStr "tool.log")) as Hlf
    by (vm_compute; reflexivity).
  rewrite Hargs in Hv, Hlf. cbn in Hv, Hlf.
  assert (is_Some (attrs w !! "tool_name")) as Htn by (eexists; vm_compute; reflexivity).
  assert (is_Some (attrs w !! "tool_version")) as Htv by (eexists; vm_compute; reflexivity).
  assert (root w = None) as Hroot by (vm_compute; reflexivity).
  assert ("tool.log" <> "") as Hne by discriminate.
  assert ("tool.log" ∉ locked w) as Hfree by (vm_compute; set_solver).
  assert ("tool.log" ∈ locked v) as Hlocked by (cbn; set_solver).
  destruct (log_file_is_appended_to cls w ns _ Hargs Hv Hlf Htn Htv Hroot)
    as (_ & Hopens & _).
  destruct (log_file_is_appended_to cls v ns _ Hargs' Hv Hlf Htn Htv Hroot)
    as (Hblocked & _ & _).
  split; [exact (Hblocked "tool.log" eq_refl Hne Hlocked)|].
  destruct (Hopens "tool.log" eq_refl Hne Hfree)
    as (c & first & second & _ & Hc & Hrec & Hs1 & Hs2 & _ & Hmode).
  exists c, first, second. done.
Defined.

(** X14.  With [--verbose] the record about the level tells the truth: on
    a fresh root logger, with a log file that opens if one is asked for,
    [setup_logging] configures level DEBUG and its second record says
    ['debug'], the name of that level. *)
Theorem verbose_level_is_the_one_named
    (cls : CmdlApp.Class) (w : World) (ns : gmap string value) (verbose : value) :
  args w = Some ns -> ns !! "verbose" = Some verbose -> truthy verbose = true ->
  is_Some (ns !! "logfile") ->
  is_Some (attrs w !! "tool_name") -> is_Some (attrs w !! "tool_version") ->
  root w = None -> log_failure w ns = None ->
  let w' := (CmdlApp.setup_logging cls w).2 in
  exists c,
    root w' = Some c /\
    Logging.level c = Logging.DEBUG /\
    (Logging.message <$> last (records w')) =
      Some "Logging system initialized to level 'debug'." /\
    Logging.level_of_name "debug" = Some (Logging.level c).
Proof.
  intros Hargs Hv Ht Hlf Htn Htv Hroot Hopen.
  rewrite (setup_logging_fresh cls w ns Hargs (ex_intro _ _ Hv) Hlf Htn Htv Hroot Hopen).
  exists (lcfg ns). cbn [snd root add_record set_root records].
  assert (Logging.level (lcfg ns) = Logging.DEBUG) as Hlevel.
  { unfold lcfg. cbn. by rewrite (option_of_lookup _ _ _ Hv), Ht. }
  split_and!; try done.
  - rewrite last_snoc. cbn. unfold level_note.
    by rewrite (option_of_lookup _ _ _ Hv), Ht.
  - by rewrite Hlevel.
Qed.

Lemma verbose_level_is_the_one_named_witness :
  let cls := CmdlApp.CmdlApp in
  let w0 := launched cls [] ["--verbose"; "--logfile=tool.log"] sample_disk in
  let w := set_args (Some (default ∅ (match Argparse.parse_args (flags (VBool false)) (argv w0) with
                                      | Ok parsed_ns => Some parsed_ns
                                      | _ => None
                                      end))) w0 in
  exists c,
    root (CmdlApp.setup_logging cls w).2 = Some c /\
    Logging.level c = Logging.DEBUG /\
    (Logging.message <$> last (records (CmdlApp.setup_logging cls w).2)) =
      Some "Logging system initialized to level 'debug'." /\
    Logging.level_of_name "debug" = Some (Logging.level c).
Proof.
  intros cls w0 w.
  assert (match args w with
          | Some parsed_ns => log_failure w parsed_ns
          | None => None
          end = None) as Hopen by (vm_compute; reflexivity).
  destruct (args w) as [ns|] eqn:Hargs; [|vm_compute in Hargs; discriminate].
  assert (args w ≫= (fun parsed_ns => parsed_ns !! "verbose") = Some (VBool true)) as Hv
    by (vm_compute; reflexivity).
  assert (is_Some (args w ≫= (fun parsed_ns => parsed_ns !! "logfile"))) as Hlf
    by (eexists; vm_compute; reflexivity).
  rewrite Hargs in Hv, Hlf. cbn in Hv, Hlf.
  assert (is_Some (attrs w !! "tool_name")) as Htn by (eexists; vm_compute; reflexivity).
  assert (is_Some (attrs w !! "tool_version")) as Htv by (eexists; vm_compute; reflexivity).
  assert (root w = None) as Hroot by (vm_compute; reflexivity).
  exact (verbose_level_is_the_one_named cls w ns (VBool true)
           Hargs Hv eq_refl Hlf Htn Htv Hroot Hopen).
Defined.

(** X16.  A log file that cannot be opened ends the run in
    [setup_logging]: [run] raises the exception of [logging.basicConfig],
    an [OSError] for a path closed to writing, and the process exits with
    status 1.  Nothing has been logged, the root logger is not configured,
    no handler is registered, no configuration is loaded and the work
    function is not called. *)
Theorem unopenable_log_file_stops_run
    (cls : CmdlApp.Class) (w : World) (ns : gmap string value) (e : exn) :
  constructed w -> root w = None ->
  Argparse.parse_args (flags (attr w "has_cfgfile")) (argv w) = Ok ns ->
  log_failure w ns = Some e ->
  let w' := (CmdlApp.run cls w).2 in
  (CmdlApp.run cls w).1 = Raise e /\
  exit_status (CmdlApp.run cls w).1 = Exit 1 /\
  (forall p, option_of ns "logfile" = VStr p ->
     p ∈ locked w /\ e = OSError "Permission denied") /\
  records w' = records w /\ root w' = None /\ sighup w' = sighup w /\
  cfg w' = cfg w /\
  trace w' = trace w ++ [Call "setup_args" []; Call "parse_args" [];
                         Call "setup_logging" []].
Proof.
  intros Hc Hroot Hns Hlog. cbn zeta. rewrite run_phases.
  erewrite bind_Raise by (by apply startup_blocked).
  cbn. rewrite <- !app_assoc. split_and!; try done.
  - unfold log_failure in Hlog. by repeat case_match; simplify_eq.
  - intros p Hp. unfold log_failure in Hlog. rewrite Hp in Hlog.
    destruct (truthy (VStr p)); [|done].
    case_bool_decide; [|done]. by injection Hlog as <-.
Qed.

Lemma unopenable_log_file_stops_run_witness :
  let cls := CmdlApp.CmdlApp in
  let w := set_locked {["/var/log/tool.log"]}
             (launched cls [] ["--logfile"; "/var/log/tool.log"] sample_disk) in
  (CmdlApp.run cls w).1 = Raise (OSError "Permission denied") /\
  exit_status (CmdlApp.run cls w).1 = Exit 1 /\
  records (CmdlApp.run cls w).2 = [] /\
  root (CmdlApp.run cls w).2 = None.
Proof.
  intros cls w.
  assert (constructed w) as Hc
    by (unfold constructed; split_and!; eexists; vm_compute; reflexivity).
  assert (root w = None) as Hroot by (vm_compute; reflexivity).
  assert (match Argparse.parse_args (flags (attr w "has_cfgfile")) (argv w) with
          | Ok parsed_ns => log_failure w parsed_ns
          | _ => None
          end = Some (OSError "Permission denied")) as Hlog by (vm_compute; reflexivity).
  destruct (Argparse.parse_args (flags (attr w "has_cfgfile")) (argv w))
    as [ns| |] eqn:Hns; [|discriminate..].
  destruct (unopenable_log_file_stops_run cls w ns _ Hc Hroot Hns Hlog)
    as (Hrun & Hexit & _ & Hrec & Hroot' & _).
  split; [exact Hrun|]. split; [exact Hexit|]. split; [|exact Hroot'].
  rewrite Hrec. vm_compute. reflexivity.
Defined.
